(** * DICOM de-identification: tag sweep, identity mapping, pixel redaction

    A shallow embedding of [local_deid.py] (per-file orchestration, UID
    generator, tag sweep, manifest) and [pixel_deid.py] (OCR-driven pixel
    redaction), with the properties of the design document stated over it,
    and of the two helpers that ship the output: the batch planner of
    [batch_zip.py] and the key builder of [upload_s3.py].

    What the embedding takes from the collaborators (pydicom, easyocr, cv2,
    numpy, the file system, the clock) is written next to each definition
    that uses it: the answers of the collaborators for one file are fields
    of [InputFile], the readings of the clock are a list in the state, and
    the persisted output of a file is the object handed to [dcmwrite].

    The first part holds the definitions, the second the properties of the
    design document, the third further properties of the code. *)

From Stdlib Require Import ZArith NArith Ascii String DecimalString PrimFloat Lia.
From coqutil Require Import Byte Word.LittleEndianList.
From stdpp Require Import gmap strings list.

Local Open Scope string_scope.
Local Open Scope list_scope.

(** ** Text

    Python [str] values are held as [string], one character per code point
    below 256 (the DICOM dictionary names and the English OCR alphabet stay
    in that range). *)

Module Text.

Definition code (c : ascii) : N := N_of_ascii c.

Definition between (lo hi n : N) : bool := ((lo <=? n) && (n <=? hi))%N.

(** [str.isspace] on one character. *)
Definition is_space (c : ascii) : bool :=
  let n := code c in
  between 9 13 n || between 28 32 n || (n =? 133)%N || (n =? 160)%N.

(** The characters [str.lower] changes. *)
Definition is_upper (c : ascii) : bool :=
  let n := code c in
  between 65 90 n || between 192 214 n || between 216 222 n.

Definition lower_char (c : ascii) : ascii :=
  if is_upper c then ascii_of_N (code c + 32) else c.

(** [str.isalpha] on one character. *)
Definition is_alpha (c : ascii) : bool :=
  let n := code c in
  between 65 90 n || between 97 122 n || (n =? 170)%N || (n =? 181)%N
  || (n =? 186)%N || between 192 214 n || between 216 246 n
  || between 248 255 n.

(** [s.lower()] *)
Fixpoint lower (s : string) : string :=
  match s with
  | EmptyString => EmptyString
  | String c r => String (lower_char c) (lower r)
  end.

(** [s.lstrip()] *)
Fixpoint lstrip (s : string) : string :=
  match s with
  | EmptyString => EmptyString
  | String c r => if is_space c then lstrip r else s
  end.

(** [s.rstrip()] *)
Fixpoint rstrip (s : string) : string :=
  match s with
  | EmptyString => EmptyString
  | String c r =>
      match rstrip r with
      | EmptyString => if is_space c then EmptyString else String c EmptyString
      | r' => String c r'
      end
  end.

(** [s.strip()] *)
Definition strip (s : string) : string := rstrip (lstrip s).

(** [s.replace(" ", "")] *)
Fixpoint remove_spaces (s : string) : string :=
  match s with
  | EmptyString => EmptyString
  | String c r =>
      if (code c =? 32)%N then remove_spaces r else String c (remove_spaces r)
  end.

(** [k in s] on strings: [k] occurs as a contiguous substring of [s]. *)
Fixpoint contains (k s : string) : bool :=
  String.prefix k s ||
  match s with
  | EmptyString => false
  | String _ r => contains k r
  end.

(** [s.isalpha()]: non-empty and every character alphabetic. *)
Fixpoint all_alpha (s : string) : bool :=
  match s with
  | EmptyString => true
  | String c r => is_alpha c && all_alpha r
  end.

Definition isalpha (s : string) : bool :=
  match s with
  | EmptyString => false
  | _ => all_alpha s
  end.

(** [str(n)] for a non-negative integer. *)
Definition of_N (n : N) : string := NilZero.string_of_uint (N.to_uint n).

(** [x in xs] for a collection of strings. *)
Definition mem (x : string) (xs : list string) : bool :=
  existsb (String.eqb x) xs.

End Text.

(** ** The tag policy of [local_deid.py] *)

(** [KEEP_TAGS] *)
Definition KEEP_TAGS : list string :=
  [ "AcquisitionMatrix"; "AngioFlag"; "BurnedInAnnotation"; "CodeMeaning"; "CodeValue";
    "CodingSchemeDesignator"; "dBdt"; "DeidentificationMethodCodeSequence"; "DeviceSerialNumber";
    "EchoNumbers"; "EchoTime"; "EchoTrainLength"; "FlipAngle"; "FrameOfReferenceUID";
    "ImageOrientation"; "ViewName"; "ImageOrientationPatient"; "ImageOrientationSlide";
    "ImagePosition"; "ImagePositionPatient"; "ImageType"; "ImagingFrequency";
    "InPlanePhaseEncodingDirection"; "InstanceNumber"; "InstitutionAddress";
    "InstitutionName"; "InversionTime"; "Laterality"; "LongCodeValue";
    "MagneticFieldStrength"; "Manufacturer"; "ManufacturerModelName"; "Modality";
    "MRAcquisitionType"; "NumberOfAverages"; "NumberOfPhaseEncodingSteps"; "NumberOfSlices";
    "NumberOfTimeSlices"; "PatientPosition"; "PercentPhaseFieldOfView"; "PercentSampling";
    "PerformedProcedureStepDescription"; "PixelBandwidth"; "PixelSpacing";
    "PositionReferenceIndicator"; "ProtocolName"; "RepetitionTime"; "RequestedProcedureDescription";
    "SAR"; "ScanningSequence"; "ScanOptions"; "SequenceName"; "SequenceVariant";
    "SeriesDescription"; "SeriesNumber"; "SliceLocation"; "SliceThickness"; "SoftwareVersions";
    "SOPClassUID"; "SourceOrientation"; "SourcePosition"; "SpacingBetweenSlices";
    "StationName"; "StudyDescription"; "URNCodeValue"; "VariableFlipAngleFlag"; "Specific Character Set";
    "SOP Instance UID"; "Manufacturer's Model Name"; "Anatomic Region";
    "Sequence"; "Body Part Examined"; "Imager Pixel Spacing"; "Relative X-Ray Exposure"; "Exposure Index";
    "Target Exposure Index"; "Deviation Index"; "Detector Type"; "Detector Configuration"; "Patient Orientation";
    "Image Laterality"; "Samples per Pixel"; "Photometric Interpretation"; "Rows"; "Columns"; "Bits Allocated";
    "Bits Stored"; "High Bit"; "Pixel Representation"; "Longitudinal Temporal Information Modified";
    "Pixel Intensity Relationship"; "Pixel Intensity Relationship Sign"; "Window Center"; "Window Width";
    "Rescale Intercept"; "Rescale Slope"; "Rescale Type"; "Window Center & Width Explanation";
    "Lossy Image Compression"; "Acquisition Context Sequence"; "Filler Order Number / Imaging Service Request";
    "Presentation LUT Shape"; "Pixel Data"; "Planar Configuration"; "planarconfiguration"; "pixelaspectratio"; "numberofframes";
    "referencedperformedprocedurestepsequence"; "performedprotocolcodesequence"; "requestattributessequence"; "procedurecodesequence";
    "anatomicregionsequence"; "acquisitioncontextsequence"; "sequenceofultrasoundregions"; "ultrasoundcolordatapresent";
    "transducerdata" ].

(** [REPLACEMENT_TAGS] *)
Definition REPLACEMENT_TAGS : list string :=
  [ "AccessionNumber"; "PatientID"; "PatientName"; "StudyID"; "PatientIdentityRemoved";
    "StudyInstanceUID"; "SeriesInstanceUID"; "SOPInstanceUID"; "MediaStorageSOPInstanceUID" ].

(** [normalize_tag] of [main]: [tag_name.replace(" ", "").lower()] *)
Definition normalize_tag (tag_name : string) : string :=
  Text.lower (Text.remove_spaces tag_name).

(** [{normalize_tag(t) for t in KEEP_TAGS}] *)
Definition keep_normalized : list string := map normalize_tag KEEP_TAGS.

(** [{normalize_tag(t) for t in REPLACEMENT_TAGS}] *)
Definition replace_normalized : list string := map normalize_tag REPLACEMENT_TAGS.

(** ** DICOM objects, as pydicom presents them *)

(** A tag is (group, element). *)
Definition Tag : Type := N * N.

(** [tag.is_private]: the group number is odd. *)
Definition is_private (t : Tag) : bool := N.odd t.1.

(** The attributes the program reaches by keyword ([ds.PatientID],
    [getattr(ds, 'SamplesPerPixel', 1)], ...). *)
Inductive Keyword :=
| AccessionNumber | PatientID | PatientName | StudyID | PatientIdentityRemoved
| StudyInstanceUID | SeriesInstanceUID | SOPInstanceUID | SOPClassUID
| PixelData | BitsAllocated | BitsStored | HighBit | PixelRepresentation
| SamplesPerPixel | NumberOfFrames.

Definition keywords_all : list Keyword :=
  [ AccessionNumber; PatientID; PatientName; StudyID; PatientIdentityRemoved;
    StudyInstanceUID; SeriesInstanceUID; SOPInstanceUID; SOPClassUID;
    PixelData; BitsAllocated; BitsStored; HighBit; PixelRepresentation;
    SamplesPerPixel; NumberOfFrames ].

(** The DICOM data dictionary's tag of each keyword. *)
Definition tag_of (k : Keyword) : Tag :=
  match k with
  | AccessionNumber => (0x0008, 0x0050)
  | PatientID => (0x0010, 0x0020)
  | PatientName => (0x0010, 0x0010)
  | StudyID => (0x0020, 0x0010)
  | PatientIdentityRemoved => (0x0012, 0x0062)
  | StudyInstanceUID => (0x0020, 0x000D)
  | SeriesInstanceUID => (0x0020, 0x000E)
  | SOPInstanceUID => (0x0008, 0x0018)
  | SOPClassUID => (0x0008, 0x0016)
  | PixelData => (0x7FE0, 0x0010)
  | BitsAllocated => (0x0028, 0x0100)
  | BitsStored => (0x0028, 0x0101)
  | HighBit => (0x0028, 0x0102)
  | PixelRepresentation => (0x0028, 0x0103)
  | SamplesPerPixel => (0x0028, 0x0002)
  | NumberOfFrames => (0x0028, 0x0008)
  end%N.

(** The dictionary's description of each keyword: what [elem.name] returns
    for the element at that tag. *)
Definition description (k : Keyword) : string :=
  match k with
  | AccessionNumber => "Accession Number"
  | PatientID => "Patient ID"
  | PatientName => "Patient's Name"
  | StudyID => "Study ID"
  | PatientIdentityRemoved => "Patient Identity Removed"
  | StudyInstanceUID => "Study Instance UID"
  | SeriesInstanceUID => "Series Instance UID"
  | SOPInstanceUID => "SOP Instance UID"
  | SOPClassUID => "SOP Class UID"
  | PixelData => "Pixel Data"
  | BitsAllocated => "Bits Allocated"
  | BitsStored => "Bits Stored"
  | HighBit => "High Bit"
  | PixelRepresentation => "Pixel Representation"
  | SamplesPerPixel => "Samples per Pixel"
  | NumberOfFrames => "Number of Frames"
  end.

Definition keyword_of_tag (t : Tag) : option Keyword :=
  find (fun k => bool_decide (tag_of k = t)) keywords_all.

(** Element values: text (and person names, UIDs), integers, raw bytes,
    and sequences of nested datasets. *)
Inductive Value :=
| VText (s : string)
| VInt (z : Z)
| VBytes (b : list byte)
| VSeq (items : list (list Element))
with Element :=
| Elem (tag : Tag) (value : Value).

Definition e_tag (e : Element) : Tag := let 'Elem t _ := e in t.
Definition e_value (e : Element) : Value := let 'Elem _ v := e in v.

(** A dataset holds one element per tag.  The list stands for the order in
    which pydicom iterates; the lookups below go by tag, wherever the
    element stands. *)
Abbreviation Dataset := (list Element).

(** What the codec contributes to the sweep: the rest of its data
    dictionary, and whether assigning [''] to the value of the element at a
    tag raises (this depends on the value representation). *)
Record Codec := {
  dictionary_description : Tag -> string;
  clear_raises : Tag -> bool
}.

(** [elem.name]: pydicom looks the name up by the tag. *)
Definition elem_name (codec : Codec) (t : Tag) : string :=
  match keyword_of_tag t with
  | Some k => description k
  | None => dictionary_description codec t
  end.

(** Python truth value of an element value ([not ds.PixelData]). *)
Definition truthy (v : Value) : bool :=
  match v with
  | VText s => negb (String.eqb s "")
  | VInt z => negb (z =? 0)%Z
  | VBytes b => negb (bool_decide (b = []))
  | VSeq items => negb (Nat.eqb (length items) 0)
  end.

(** The value an element holds after [elem.value = '']: the empty string,
    or the empty sequence where the element is a sequence. *)
Definition cleared (v : Value) : Value :=
  match v with
  | VSeq _ => VSeq []
  | _ => VText ""
  end.

(** An empty value: no text, no bytes, no items. *)
Definition is_empty (v : Value) : bool :=
  match v with
  | VText "" | VBytes [] | VSeq [] => true
  | _ => false
  end.

Module Ds.

(** [ds[tag]]: the top-level element, [None] for [KeyError]. *)
Fixpoint get (t : Tag) (ds : Dataset) : option Value :=
  match ds with
  | [] => None
  | Elem t' v :: r => if decide (t' = t) then Some v else get t r
  end.

(** [tag in ds] *)
Definition has (t : Tag) (ds : Dataset) : bool :=
  match get t ds with Some _ => true | None => false end.

(** The element at [t] takes value [v] where it exists. *)
Fixpoint update (t : Tag) (v : Value) (ds : Dataset) : Dataset :=
  match ds with
  | [] => []
  | Elem t' v' :: r =>
      if decide (t' = t) then Elem t' v :: r else Elem t' v' :: update t v r
  end.

(** [ds.Keyword = v]: overwrite the value of the element, or add one. *)
Definition set (t : Tag) (v : Value) (ds : Dataset) : Dataset :=
  if has t ds then update t v ds else ds ++ [Elem t v].

(** The dataset without its element at [t]. *)
Definition remove (t : Tag) (ds : Dataset) : Dataset :=
  filter (fun e => e_tag e ≠ t) ds.

(** [del ds[tag]]: [None] for [KeyError]. *)
Definition del (t : Tag) (ds : Dataset) : option Dataset :=
  if has t ds then Some (remove t ds) else None.

(** [ds[tag].value = '']: [None] when the lookup raises [KeyError] or the
    codec rejects the empty value. *)
Definition clear (codec : Codec) (t : Tag) (ds : Dataset) : option Dataset :=
  match get t ds with
  | None => None
  | Some v => if clear_raises codec t then None else Some (update t (cleared v) ds)
  end.

End Ds.

(** [ds.iterall()]: every element, recursing into the items of sequences. *)
Fixpoint iterall_elem (e : Element) : list Element :=
  e :: match e_value e with
       | VSeq items => flat_map (flat_map iterall_elem) items
       | _ => []
       end.

Definition iterall (ds : Dataset) : list Element := flat_map iterall_elem ds.

(** ** The tag sweep of [process_file] *)

Section Sweep.

Context (codec : Codec).

(** One turn of the loop over [list(ds.iterall())].  [ds[elem.tag]] and
    [del ds[elem.tag]] address the top level of [ds]; a [KeyError] from
    either ends in the outer [except], which moves on.  The lists
    [kept_tags] and [wiped_tags] are only printed. *)
Definition sweep_elem (ds : Dataset) (elem : Element) : Dataset :=
  let norm := normalize_tag (elem_name codec (e_tag elem)) in
  if Text.mem norm keep_normalized then ds
  else if Text.mem norm replace_normalized then ds
  else if is_private (e_tag elem) then
    match Ds.del (e_tag elem) ds with
    | Some ds' => ds'
    | None => ds
    end
  else
    match Ds.clear codec (e_tag elem) ds with
    | Some ds' => ds'
    | None =>
        match Ds.del (e_tag elem) ds with
        | Some ds' => ds'
        | None => ds
        end
    end.

(** The whole loop: the elements are listed before the first is touched. *)
Definition sweep (ds : Dataset) : Dataset :=
  fold_left sweep_elem (iterall ds) ds.

End Sweep.

(** ** UID generator *)

(** A reading of [datetime.now()]. *)
Record DateTime := {
  year : N; month : N; day : N; hour : N;
  minute : N; second : N; microsecond : N
}.

(** [UIDGenerator]: [current_uid] is [None] until the first call. *)
Record UIDGenerator := {
  org_root : string;
  current_uid : option string
}.

Definition UIDGenerator_init : UIDGenerator :=
  {| org_root := "1.3.6.1.4.1.11129.5.1"; current_uid := None |}.

(** [f"{self.org_root}.{n.year}{n.month}{n.day}{n.minute}{n.second}{n.microsecond}"] *)
Definition format_uid (root : string) (n : DateTime) : string :=
  root +:+ "." +:+ Text.of_N (year n) +:+ Text.of_N (month n) +:+ Text.of_N (day n)
       +:+ Text.of_N (minute n) +:+ Text.of_N (second n) +:+ Text.of_N (microsecond n).

(** [UIDGenerator.generate].  The clock is the list of the readings that
    [datetime.now()] is going to return, one per call; the loop reads until
    a reading formats to something other than [current_uid].  [None] when
    the readings run out first. *)
Fixpoint generate (g : UIDGenerator) (clock : list DateTime)
  : option (string * UIDGenerator * list DateTime) :=
  match clock with
  | [] => None
  | n :: later =>
      let new_uid := format_uid (org_root g) n in
      if decide (Some new_uid = current_uid g) then generate g later
      else Some (new_uid, {| org_root := org_root g; current_uid := Some new_uid |}, later)
  end.

Definition t0 : DateTime :=
  {| year := 2024; month := 3; day := 7; hour := 10;
     minute := 5; second := 3; microsecond := 123 |}.

(** ** Pixel buffers *)

(** An integer numpy dtype: signedness and bytes per sample. *)
Record DType := {
  signed : bool;
  itemsize : nat
}.

Definition uint8 : DType := {| signed := false; itemsize := 1 |}.
Definition uint16 : DType := {| signed := false; itemsize := 2 |}.
Definition int16 : DType := {| signed := true; itemsize := 2 |}.

Definition modulus (d : DType) : Z := 2 ^ (Z.of_nat (itemsize d) * 8).


(** Integer conversion to a dtype wraps around. *)
Definition wrap (d : DType) (v : Z) : Z :=
  if signed d then ((v + modulus d / 2) mod modulus d - modulus d / 2)%Z
  else (v mod modulus d)%Z.

(** One frame as [pixel_array] presents it: shape (rows, cols) with one
    sample per pixel, or (rows, cols, channels). *)
Inductive Frame :=
| Gray (px : list (list Z))
| Color (px : list (list (list Z))).

(** A decoded array: one frame, or frames stacked along a leading axis. *)
Inductive ArrayBody :=
| Single (f : Frame)
| Stack (fs : list Frame).

Record PixelArray := {
  dtype : DType;
  body : ArrayBody
}.

Definition frame_rank (f : Frame) : nat :=
  match f with Gray _ => 2 | Color _ => 3 end.

(** [len(original_array.shape)] *)
Definition rank (a : ArrayBody) : nat :=
  match a with
  | Single f => frame_rank f
  | Stack fs => S (frame_rank (hd (Gray []) fs))
  end.

(** [original_array.shape[0]] *)
Definition shape0 (a : ArrayBody) : nat :=
  match a with
  | Single (Gray px) => length px
  | Single (Color px) => length px
  | Stack fs => length fs
  end.

(** [img.shape[:2]] *)
Definition shape2 (img : Frame) : nat * nat :=
  match img with
  | Gray px => (length px, length (hd [] px))
  | Color px => (length px, length (hd [] px))
  end.

Definition map_frame (f : Z -> Z) (img : Frame) : Frame :=
  match img with
  | Gray px => Gray (map (map f) px)
  | Color px => Color (map (map (map f)) px)
  end.

(** [a.astype(d)] *)
Definition astype (d : DType) (a : ArrayBody) : ArrayBody :=
  match a with
  | Single f => Single (map_frame (wrap d) f)
  | Stack fs => Stack (map (map_frame (wrap d)) fs)
  end.

(** The samples in C order. *)
Definition frame_samples (img : Frame) : list Z :=
  match img with
  | Gray px => concat px
  | Color px => concat (concat px)
  end.

Definition samples_of (a : ArrayBody) : list Z :=
  match a with
  | Single f => frame_samples f
  | Stack fs => flat_map frame_samples fs
  end.

(** [a.tobytes()] for an array of dtype [d]: each sample in [itemsize]
    bytes, least significant first, two's complement. *)
Definition tobytes (d : DType) (a : ArrayBody) : list byte :=
  flat_map (le_split (itemsize d)) (samples_of a).


(** ** [pixel_deid.py]: OCR-driven redaction *)

(** A point is (x, y): column, then row. *)
Definition Point : Type := Z * Z.

(** One result of [reader.readtext]: the four corners in the order top-left,
    top-right, bottom-right, bottom-left (integer coordinates, on which
    [int] is the identity), the text, and the confidence. *)
Record Detection := {
  bbox : Point * Point * Point * Point;
  text : string;
  prob : float
}.

(** [DicomPixelRedactor].  [readtext samples img] stands for building the
    8-bit detection view of [img] and running the reader on it; [None] when
    either raises. *)
Record DicomPixelRedactor := {
  redaction_mode : string;
  readtext : Z -> Frame -> option (list Detection)
}.

(** [self.keywords] *)
Definition keywords : list string :=
  [ "right"; "left"; "rt"; "lt"; "rk"; "lk"; "kidney"; "bladder";
    "sagittal"; "sag"; "transverse"; "trans"; "prone" ].

(** The float [0.6] of [prob > 0.6]: the binary64 value nearest to 6/10. *)
Definition threshold : float := 0x1.3333333333333p-1%float.

(** [max(0, min(int(v), n - 1))] *)
Definition clamp (v : Z) (n : nat) : Z := Z.max 0 (Z.min v (Z.of_nat n - 1)).

(** Whether pixel (x, y) lies in the filled rectangle with opposite corners
    [pt1] and [pt2], both included. *)
Definition in_box (pt1 pt2 : Point) (x y : Z) : bool :=
  (Z.min pt1.1 pt2.1 <=? x)%Z && (x <=? Z.max pt1.1 pt2.1)%Z &&
  (Z.min pt1.2 pt2.2 <=? y)%Z && (y <=? Z.max pt1.2 pt2.2)%Z.

(** [cv2.rectangle(mask, pt1, pt2, color, thickness=-1)] *)
Definition rectangle (mask : list (list Z)) (pt1 pt2 : Point) (color : Z)
  : list (list Z) :=
  imap (fun y row =>
          imap (fun x v => if in_box pt1 pt2 (Z.of_nat x) (Z.of_nat y) then color else v)
               row)
       mask.

(** The corners handed to [cv2.rectangle] for a detection. *)
Definition corners (rows cols : nat) (d : Detection) : Point * Point :=
  let '(tl, tr, br, bl) := bbox d in
  ((clamp tl.1 cols, clamp tl.2 rows), (clamp br.1 cols, clamp br.2 rows)).

(** The body of the loop over the OCR results. *)
Definition mask_step (mode : string) (rows cols : nat)
    (mask : list (list Z)) (d : Detection) : list (list Z) :=
  if PrimFloat.ltb threshold (prob d) then
    let cleaned_text := Text.lower (Text.strip (text d)) in
    if negb (String.eqb mode "Full")
       && existsb (fun k => Text.contains k cleaned_text) keywords
    then mask
    else if negb (String.eqb mode "Full")
            && (Nat.eqb (String.length cleaned_text) 1 && Text.isalpha cleaned_text)
    then mask
    else
      let '(tl, br) := corners rows cols d in
      rectangle mask tl br 0
  else mask.

(** [np.ones((rows, cols), dtype=np.uint8) * 255] *)
Definition ones_255 (rows cols : nat) : list (list Z) :=
  replicate rows (replicate cols 255%Z).

Definition build_mask (mode : string) (rows cols : nat) (results : list Detection)
  : list (list Z) :=
  fold_left (mask_step mode rows cols) results (ones_255 rows cols).

(** [np.where(mask == 0, 0, img)], the mask and the image of one shape. *)
Definition where_zero {A} (zero : A) (mask : list (list Z)) (img : list (list A))
  : list (list A) :=
  zip_with (zip_with (fun m v => if (m =? 0)%Z then zero else v)) mask img.

(** [redact_frame].  Whatever raises inside the [try] returns [img] as it
    came: a failing reader, and an image whose shape does not match the
    mask that the branch for [samples] builds (numpy does not broadcast the
    two, extents of one or three apart). *)
Definition redact_frame (r : DicomPixelRedactor) (img : Frame) (samples : Z) : Frame :=
  let '(rows, cols) := shape2 img in
  match readtext r samples img with
  | None => img
  | Some results =>
      let mask := build_mask (redaction_mode r) rows cols results in
      if (samples =? 1)%Z then
        match img with
        | Gray px => Gray (where_zero 0%Z mask px)
        | Color _ => img
        end
      else
        match img with
        | Color px =>
            if forallb (forallb (fun p => Nat.eqb (length p) 3)) px
            then Color (where_zero [0; 0; 0]%Z mask px)
            else img
        | Gray _ => img
        end
  end.

(** The file meta information the program builds. *)
Record FileMeta := {
  MediaStorageSOPClassUID : option string;
  MediaStorageSOPInstanceUID : option string;
  ImplementationClassUID : option string;
  TransferSyntaxUID : option string
}.

(** A [pydicom] dataset object: its elements, its file meta and the two
    encoding attributes. *)
Record DicomObject := {
  elements : Dataset;
  file_meta : FileMeta;
  is_little_endian : option bool;
  is_implicit_VR : option bool
}.

Definition ExplicitVRLittleEndian : string := "1.2.840.10008.1.2.1".

Definition with_elements (obj : DicomObject) (ds : Dataset) : DicomObject :=
  {| elements := ds; file_meta := file_meta obj;
     is_little_endian := is_little_endian obj;
     is_implicit_VR := is_implicit_VR obj |}.

Definition with_transfer_syntax (m : FileMeta) (uid : string) : FileMeta :=
  {| MediaStorageSOPClassUID := MediaStorageSOPClassUID m;
     MediaStorageSOPInstanceUID := MediaStorageSOPInstanceUID m;
     ImplementationClassUID := ImplementationClassUID m;
     TransferSyntaxUID := Some uid |}.

(** [int(v)] on what pydicom presents for a numeric attribute; [None] where
    it raises. *)
Definition py_int (v : Value) : option Z :=
  match v with
  | VInt z => Some z
  | _ => None
  end.

(** The frame count of [redact]:
    [int(getattr(ds, 'NumberOfFrames', 1)) if hasattr(ds, 'NumberOfFrames')
     else (shape[0] if len(shape) == 4 or len(shape) == 3 and samples == 1 else 1)];
    [None] where [int] raises. *)
Definition frame_count (ds : Dataset) (a : ArrayBody) (samples : Z) : option Z :=
  match Ds.get (tag_of NumberOfFrames) ds with
  | Some v => py_int v
  | None =>
      if Nat.eqb (rank a) 4 || (Nat.eqb (rank a) 3 && (samples =? 1)%Z)
      then Some (Z.of_nat (shape0 a))
      else Some 1%Z
  end.

(** The redacted array of [redact]; [None] where building it raises.
    pydicom shapes the array by the attributes the frame count is read
    from: a count above one meets a stack of that many frames, and a single
    frame meets a count of at most one.  Outside of that, a count beyond the
    stack is the [IndexError] of [original_array[i]], a count above one on a
    single frame is held as the same failure, and a stack that goes to
    [redact_frame] whole comes back as it went. *)
Definition redact_array (r : DicomPixelRedactor) (a : ArrayBody) (samples frames : Z)
  : option ArrayBody :=
  if (1 <? frames)%Z then
    match a with
    | Stack fs =>
        if (frames <=? Z.of_nat (length fs))%Z
        then Some (Stack (map (fun img => redact_frame r img samples)
                              (take (Z.to_nat frames) fs)))
        else None
    | Single _ => None
    end
  else
    match a with
    | Single img => Some (Single (redact_frame r img samples))
    | Stack fs => Some (Stack fs)
    end.

(** How a call of [redact] ends: it returns, having written the file or
    not, or an exception leaves it. *)
Inductive RedactOutcome :=
| RedactReturned (obj : DicomObject) (saved : bool)
| RedactRaised.

(** [DicomPixelRedactor.redact].  [pixel_array] is what [ds.pixel_array]
    gives ([None]: it raises); [write_ok] tells whether [dcmwrite] succeeds
    on the output path.  The object that [dcmwrite] receives is the object
    returned with [saved = true]. *)
Definition redact (r : DicomPixelRedactor) (obj : DicomObject)
    (pixel_array : option PixelArray) (write_ok : bool) : RedactOutcome :=
  let ds := elements obj in
  if negb (Ds.has (tag_of PixelData) ds) then RedactReturned obj false
  else
    match pixel_array with
    | None => RedactReturned obj false
    | Some original_array =>
        match Ds.get (tag_of BitsAllocated) ds with
        | None => RedactRaised
        | Some bits =>
            match py_int (default (VInt 1) (Ds.get (tag_of SamplesPerPixel) ds)) with
            | None => RedactRaised
            | Some samples =>
                match frame_count ds (body original_array) samples with
                | None => RedactRaised
                | Some frames =>
                    match redact_array r (body original_array) samples frames with
                    | None => RedactReturned obj false
                    | Some redacted_array =>
                        let d := dtype original_array in
                        let ds1 := Ds.set (tag_of PixelData)
                                     (VBytes (tobytes d (astype d redacted_array))) ds in
                        let ds2 := Ds.set (tag_of BitsAllocated) bits ds1 in
                        let ds3 := Ds.set (tag_of BitsStored) bits ds2 in
                        match py_int bits with
                        | None => RedactReturned (with_elements obj ds3) false
                        | Some b =>
                            let ds4 := Ds.set (tag_of HighBit) (VInt (b - 1)) ds3 in
                            let ds5 := Ds.set (tag_of PixelRepresentation) (VInt 0) ds4 in
                            RedactReturned
                              {| elements := ds5;
                                 file_meta := with_transfer_syntax (file_meta obj)
                                                ExplicitVRLittleEndian;
                                 is_little_endian := Some true;
                                 is_implicit_VR := Some false |}
                              write_ok
                        end
                    end
                end
            end
        end
    end.

(** ** [local_deid.py]: the run state and [process_file] *)

(** The value of [accession_uid_map[deid_acc]]. *)
Record UIDPair := {
  study_uid : string;
  series_uid : string
}.

(** Paths are held by their segments. *)
Abbreviation Path := (list string).

(** One row of [output_manifest]. *)
Record ManifestEntry := {
  m_original_path : Path;
  m_deid_path : Path;
  m_original_accession : string;
  m_deid_accession : string;
  m_study_uid : Value;
  m_series_uid : Value;
  m_sop_instance_uid : string;
  m_AccessionNumber : Value;
  m_PatientIdentityRemoved : Value;
  m_PatientName : Value;
  m_StudyID : Value;
  m_PatientID : Value
}.

(** The objects of [main] that [process_file] mutates, the clock it reads
    through the generator, and the files [dcmwrite] has written. *)
Record State := {
  accession_uid_map : gmap string UIDPair;
  folder_uid_map : gmap string string;
  output_manifest : list ManifestEntry;
  uid_gen : UIDGenerator;
  clock : list DateTime;
  disk : list (Path * DicomObject)
}.

Definition set_accession_uid_map (m : gmap string UIDPair) (s : State) : State :=
  {| accession_uid_map := m; folder_uid_map := folder_uid_map s;
     output_manifest := output_manifest s; uid_gen := uid_gen s;
     clock := clock s; disk := disk s |}.

Definition set_folder_uid_map (m : gmap string string) (s : State) : State :=
  {| accession_uid_map := accession_uid_map s; folder_uid_map := m;
     output_manifest := output_manifest s; uid_gen := uid_gen s;
     clock := clock s; disk := disk s |}.

Definition set_output_manifest (l : list ManifestEntry) (s : State) : State :=
  {| accession_uid_map := accession_uid_map s; folder_uid_map := folder_uid_map s;
     output_manifest := l; uid_gen := uid_gen s;
     clock := clock s; disk := disk s |}.

Definition set_generator (g : UIDGenerator) (c : list DateTime) (s : State) : State :=
  {| accession_uid_map := accession_uid_map s; folder_uid_map := folder_uid_map s;
     output_manifest := output_manifest s; uid_gen := g;
     clock := c; disk := disk s |}.

Definition set_disk (d : list (Path * DicomObject)) (s : State) : State :=
  {| accession_uid_map := accession_uid_map s; folder_uid_map := folder_uid_map s;
     output_manifest := output_manifest s; uid_gen := uid_gen s;
     clock := clock s; disk := d |}.

(** How a piece of [process_file] ends: it returns, an exception leaves it
    (the mutations made so far stay), or the generator finds no new reading
    in the clock. *)
Inductive Outcome (A : Type) :=
| Returned (a : A) (s : State)
| Raised (s : State)
| Stalled.
Arguments Returned {A} a s.
Arguments Raised {A} s.
Arguments Stalled {A}.

Definition M (A : Type) : Type := State -> Outcome A.

#[global] Instance M_ret : MRet M := fun A a s => Returned a s.

#[global] Instance M_bind : MBind M := fun A B k m s =>
  match m s with
  | Returned a s' => k a s'
  | Raised s' => Raised s'
  | Stalled => Stalled
  end.

Definition raise {A} : M A := fun s => Raised s.
Definition get_state : M State := fun s => Returned s s.
Definition modify (f : State -> State) : M unit := fun s => Returned tt (f s).

(** [dict[key]] and attribute reads that raise when the key is missing. *)
Definition must {A} (o : option A) : M A :=
  match o with
  | Some a => mret a
  | None => raise
  end.

(** [uid_gen.generate()] *)
Definition gen_uid : M string := fun s =>
  match generate (uid_gen s) (clock s) with
  | Some (uid, g, c) => Returned uid (set_generator g c s)
  | None => Stalled
  end.

(** Lines 95-99: the study and series UIDs of a pseudonym. *)
Definition ensure_uid_pair (deid_acc : string) : M unit :=
  s ← get_state;
  match accession_uid_map s !! deid_acc with
  | Some _ => mret tt
  | None =>
      study ← gen_uid;
      series ← gen_uid;
      modify (fun s => set_accession_uid_map
                (<[deid_acc := {| study_uid := study; series_uid := series |}]>
                   (accession_uid_map s)) s)
  end.

(** Lines 108-110: the token of one folder name. *)
Definition token_for (part : string) : M string :=
  s ← get_state;
  match folder_uid_map s !! part with
  | Some tok => mret tok
  | None =>
      tok ← gen_uid;
      modify (fun s => set_folder_uid_map (<[part := tok]> (folder_uid_map s)) s);;
      mret tok
  end.

(** The loop of lines 107-110. *)
Fixpoint tokens_for (parts : list string) : M (list string) :=
  match parts with
  | [] => mret []
  | part :: rest =>
      tok ← token_for part;
      toks ← tokens_for rest;
      mret (tok :: toks)
  end.

(** What the collaborators answer for one file of the walk. *)
Record InputFile := {
  (** [os.path.relpath(full_path, input_dir).split(os.sep)[:-1]] *)
  f_dirs : list string;
  f_name : string;
  (** [is_dicom(full_path)] *)
  f_is_dicom : bool;
  (** The elements of [pydicom.dcmread(full_path)]; [None] when it raises.
      The file meta and the encoding attributes of the object read are
      replaced before anything reads them. *)
  f_dcmread : option Dataset;
  (** [ds.decompress()] followed by [ds.pixel_array]; [None] when either
      raises.  The elements are taken as they stand once decoded. *)
  f_pixel_array : option PixelArray;
  (** Whether [os.makedirs] and [dcmwrite] succeed on the output path. *)
  f_makedirs_ok : bool;
  f_dcmwrite_ok : bool
}.

(** What [main] sets up once and [process_file] only reads. *)
Record Env := {
  codec : Codec;
  accession_map : gmap string string;
  input_dir : string;
  output_base_dir : string;
  redactor : DicomPixelRedactor
}.

(** [str(n)] for an integer. *)
Definition py_str_Z (z : Z) : string := NilZero.string_of_int (Z.to_int z).

(** [str(ds.get("AccessionNumber", "")).strip()].  The attribute is text;
    for a value of bytes or a sequence [str] gives a Python literal, which
    no roster lists: [None] stands for the lookup miss that follows. *)
Definition accession_of (ds : Dataset) : option string :=
  match Ds.get (tag_of AccessionNumber) ds with
  | None => Some (Text.strip "")
  | Some (VText s) => Some (Text.strip s)
  | Some (VInt z) => Some (Text.strip (py_str_Z z))
  | Some _ => None
  end.

(** Lines 77-91: the file goes on when [decompress] and [pixel_array]
    succeed and [PixelData] is present and not empty; the [except] branch
    prints and returns. *)
Definition decoded (ds : Dataset) (pixel_array : option PixelArray) : bool :=
  match Ds.get (tag_of PixelData) ds, pixel_array with
  | Some v, Some _ => truthy v
  | _, _ => false
  end.

(** Lines 120-127 *)
Definition replace_identity (deid_acc : string) (pair : UIDPair) (sop_uid : string)
    (ds : Dataset) : Dataset :=
  let ds := Ds.set (tag_of AccessionNumber) (VText deid_acc) ds in
  let ds := Ds.set (tag_of PatientID) (VText deid_acc) ds in
  let ds := Ds.set (tag_of PatientName) (VText deid_acc) ds in
  let ds := Ds.set (tag_of StudyID) (VText deid_acc) ds in
  let ds := Ds.set (tag_of PatientIdentityRemoved) (VText "YES") ds in
  let ds := Ds.set (tag_of StudyInstanceUID) (VText (study_uid pair)) ds in
  let ds := Ds.set (tag_of SeriesInstanceUID) (VText (series_uid pair)) ds in
  Ds.set (tag_of SOPInstanceUID) (VText sop_uid) ds.

(** Lines 130-134 *)
Definition new_file_meta (sop_uid : string) : FileMeta :=
  {| MediaStorageSOPClassUID := Some sop_uid;
     MediaStorageSOPInstanceUID := Some sop_uid;
     ImplementationClassUID := Some "1.3.6.1.4.1.11129.5.1";
     TransferSyntaxUID := Some ExplicitVRLittleEndian |}.

(** Lines 119-173: the object handed to the redactor. *)
Definition scrubbed (c : Codec) (deid_acc : string) (pair : UIDPair) (sop_uid : string)
    (ds : Dataset) : DicomObject :=
  {| elements := sweep c (replace_identity deid_acc pair sop_uid ds);
     file_meta := with_transfer_syntax (new_file_meta sop_uid) ExplicitVRLittleEndian;
     is_little_endian := Some true;
     is_implicit_VR := Some false |}.

(** Lines 184-197; the attribute reads raise on a missing element. *)
Definition manifest_entry (full_path output_path : Path)
    (accession deid_acc sop_uid : string) (ds : Dataset) : option ManifestEntry :=
  study ← Ds.get (tag_of StudyInstanceUID) ds;
  series ← Ds.get (tag_of SeriesInstanceUID) ds;
  acc ← Ds.get (tag_of AccessionNumber) ds;
  removed ← Ds.get (tag_of PatientIdentityRemoved) ds;
  name ← Ds.get (tag_of PatientName) ds;
  sid ← Ds.get (tag_of StudyID) ds;
  pid ← Ds.get (tag_of PatientID) ds;
  Some {| m_original_path := full_path; m_deid_path := output_path;
          m_original_accession := accession; m_deid_accession := deid_acc;
          m_study_uid := study; m_series_uid := series;
          m_sop_instance_uid := sop_uid;
          m_AccessionNumber := acc; m_PatientIdentityRemoved := removed;
          m_PatientName := name; m_StudyID := sid; m_PatientID := pid |}.

(** Lines 94-112: the identifiers of the file.  The study and series UIDs
    of the pseudonym, the tokens of the folders below the first, and the
    SOP instance UID, in the order the generator is called. *)
Definition allocate_ids (deid_acc : string) (path_parts : list string)
  : M (list string * string) :=
  ensure_uid_pair deid_acc;;
  toks ← tokens_for (tail path_parts);
  sop_uid ← gen_uid;
  mret (toks, sop_uid).

(** [os.path.join(output_base_dir, *deid_parts)] *)
Definition output_path_of (env : Env) (deid_acc : string) (toks : list string)
    (sop_uid : string) : Path :=
  output_base_dir env :: deid_acc :: toks ++ [deid_acc +:+ "_" +:+ sop_uid +:+ ".dcm"].

(** Lines 116-201: directories, scrubbing, redaction, manifest row. *)
Definition write_and_record (env : Env) (f : InputFile) (ds : Dataset)
    (accession deid_acc : string) (toks : list string) (sop_uid : string) : M unit :=
  let full_path := input_dir env :: f_dirs f ++ [f_name f] in
  let output_path := output_path_of env deid_acc toks sop_uid in
  (if f_makedirs_ok f then mret tt else raise);;
  s ← get_state;
  pair ← must (accession_uid_map s !! deid_acc);
  let obj := scrubbed (codec env) deid_acc pair sop_uid ds in
  match redact (redactor env) obj (f_pixel_array f) (f_dcmwrite_ok f) with
  | RedactRaised => raise
  | RedactReturned obj' saved =>
      (if saved
       then modify (fun s => set_disk (disk s ++ [(output_path, obj')]) s)
       else mret tt);;
      row ← must (manifest_entry full_path output_path accession deid_acc sop_uid
                    (elements obj'));
      modify (fun s => set_output_manifest (output_manifest s ++ [row]) s)
  end.

(** Lines 94-201: a file that was read, found in the roster and decoded. *)
Definition process_decoded (env : Env) (f : InputFile) (ds : Dataset)
    (accession deid_acc : string) : M unit :=
  ids ← allocate_ids deid_acc (f_dirs f);
  write_and_record env f ds accession deid_acc ids.1 ids.2.

(** [process_file] *)
Definition process_file (env : Env) (f : InputFile) : M unit :=
  if negb (f_is_dicom f) then mret tt
  else
    match f_dcmread f with
    | None => mret tt
    | Some ds =>
        match accession_of ds with
        | None => mret tt
        | Some accession =>
            match accession_map env !! accession with
            | None => mret tt
            | Some deid_acc =>
                if decoded ds (f_pixel_array f)
                then process_decoded env f ds accession deid_acc
                else mret tt
            end
        end
    end.

(** The loop of [main]: an exception from [process_file] is printed and the
    walk goes on.  [None] when the generator stalls. *)
Fixpoint main_loop (env : Env) (files : list InputFile) (s : State) : option State :=
  match files with
  | [] => Some s
  | f :: rest =>
      match process_file env f s with
      | Returned _ s' => main_loop env rest s'
      | Raised s' => main_loop env rest s'
      | Stalled => None
      end
  end.

(** The state [main] starts from, with the clock readings to come. *)
Definition initial_state (readings : list DateTime) : State :=
  {| accession_uid_map := ∅; folder_uid_map := ∅; output_manifest := [];
     uid_gen := UIDGenerator_init; clock := readings; disk := [] |}.

Definition main (env : Env) (files : list InputFile) (readings : list DateTime)
  : option State :=
  main_loop env files (initial_state readings).

(** The state an outcome leaves behind. *)
Definition state_of {A} (o : Outcome A) : option State :=
  match o with
  | Returned _ s => Some s
  | Raised s => Some s
  | Stalled => None
  end.

(** ** [batch_zip.py]: planning the batches

    Sizes are Python integers.  What the file system gives
    ([list_children], [walk_size]) comes in as the list of items, and the
    archives written from the plan are outside the embedding. *)

(** An item of the plan: a child of the source folder and its size. *)
Abbreviation Item := (Path * Z)%type.

(** [sum(s for _, s in b)] *)
Definition bsize (b : list Item) : Z := foldr Z.add 0%Z (map snd b).

(** [sorted(items, key=lambda t: t[1], reverse=True)]: by size, largest
    first; the sort is stable, so items of one size keep their order.
    [insert_desc it l] puts [it], which stood before the items of [l], into
    the sorted [l]. *)
Fixpoint insert_desc (it : Item) (l : list Item) : list Item :=
  match l with
  | [] => [it]
  | x :: rest => if (it.2 <? x.2)%Z then x :: insert_desc it rest else it :: l
  end.

Definition sorted_desc (items : list Item) : list Item := foldr insert_desc [] items.

(** Lines 73-80: the loop over [enumerate(free_space)], from index [i] on.
    [best] holds [best_idx] and [best_space_after], [None] for the initial
    [-1] and [None]. *)
Fixpoint best_fit (size : Z) (i : nat) (free_space : list Z) (best : option (nat * Z))
  : option (nat * Z) :=
  match free_space with
  | [] => best
  | space :: rest =>
      best_fit size (S i) rest
        (if (size <=? space)%Z then
           let after := (space - size)%Z in
           match best with
           | None => Some (i, after)
           | Some (_, best_space_after) =>
               if (after <? best_space_after)%Z then Some (i, after) else best
           end
         else best)
  end.

(** The two lists the loop of [best_fit_decreasing] builds. *)
Record Plan := {
  bins : list (list Item);
  free_space : list Z
}.

(** The body of the loop over [items_sorted]. *)
Definition place (capacity : Z) (p : Plan) (it : Item) : Plan :=
  let size := it.2 in
  if (capacity <? size)%Z then
    {| bins := bins p ++ [[it]];
       free_space := free_space p ++ [Z.max 0 (capacity - size)] |}
  else
    match best_fit size 0 (free_space p) None with
    | None =>
        {| bins := bins p ++ [[it]];
           free_space := free_space p ++ [(capacity - size)%Z] |}
    | Some (best_idx, _) =>
        {| bins := alter (fun b => b ++ [it]) best_idx (bins p);
           free_space := alter (fun space => (space - size)%Z) best_idx (free_space p) |}
    end.

(** [best_fit_decreasing] *)
Definition best_fit_decreasing (items : list Item) (capacity : Z) : list (list Item) :=
  bins (fold_left (place capacity) (sorted_desc items) {| bins := []; free_space := [] |}).

(** ** [upload_s3.py]: the key of a file

    Paths are held by their parts, which [pathlib] compares one by one
    (exactly, as on POSIX).  The upload itself is outside the embedding. *)

(** [local_file.relative_to(local_root)] on the parts of the two paths;
    [None] for the [ValueError] of a file that is not below the root. *)
Fixpoint relative_to (local_file local_root : Path) {struct local_root} : option Path :=
  match local_root with
  | [] => Some local_file
  | r :: root =>
      match local_file with
      | f :: file => if String.eqb f r then relative_to file root else None
      | [] => None
      end
  end.

(** The text of [PurePosixPath] built from the parts of a relative path. *)
Definition posix (parts : Path) : string :=
  match parts with
  | [] => "."
  | _ => String.concat "/" parts
  end.

(** [s.endswith("/")] *)
Fixpoint ends_with_slash (s : string) : bool :=
  match s with
  | EmptyString => false
  | String c EmptyString => Ascii.eqb c "/"
  | String _ r => ends_with_slash r
  end.

(** [build_s3_key] *)
Definition build_s3_key (local_file local_root : Path) (prefix : string) : option string :=
  rel ← relative_to local_file local_root;
  let rel_posix := posix rel in
  let prefix :=
    if negb (String.eqb prefix "") && negb (ends_with_slash prefix)
    then prefix +:+ "/" else prefix in
  Some (if negb (String.eqb prefix "") then prefix +:+ rel_posix else rel_posix).

(** ** Predicates the properties are stated with *)

(** The sweep passes over an element whose normalized name is in the
    keep-list or in the replace set. *)
Definition spared (c : Codec) (t : Tag) : bool :=
  Text.mem (normalize_tag (elem_name c t)) keep_normalized
  || Text.mem (normalize_tag (elem_name c t)) replace_normalized.

(** Absent, or present with an empty value. *)
Definition emptied (t : Tag) (ds : Dataset) : Prop :=
  match Ds.get t ds with
  | None => True
  | Some v => is_empty v = true
  end.

(** The elements [redact] assigns besides [BitsAllocated], which it
    assigns the value it has. *)
Definition reasserted : list Tag :=
  [ tag_of PixelData; tag_of BitsStored; tag_of HighBit; tag_of PixelRepresentation ].

(** The caches only gain entries. *)
Definition grows (s s' : State) : Prop :=
  accession_uid_map s ⊆ accession_uid_map s'
  ∧ folder_uid_map s ⊆ folder_uid_map s'.

(** The manifest and the written files are the same. *)
Definition same_logs (s s' : State) : Prop :=
  output_manifest s' = output_manifest s ∧ disk s' = disk s.

(** The files and the rows that one call of [process_file] adds, from what
    the redactor returned. *)
Definition written (env : Env) (deid_acc : string) (toks : list string) (sop_uid : string)
    (obj' : DicomObject) (saved : bool) : list (Path * DicomObject) :=
  if saved then [(output_path_of env deid_acc toks sop_uid, obj')] else [].

Definition recorded (env : Env) (f : InputFile) (accession deid_acc : string)
    (toks : list string) (sop_uid : string) (obj' : DicomObject) : list ManifestEntry :=
  match manifest_entry (input_dir env :: f_dirs f ++ [f_name f])
          (output_path_of env deid_acc toks sop_uid) accession deid_acc sop_uid
          (elements obj') with
  | Some row => [row]
  | None => []
  end.

(** [process_file] took the file up to the redactor, which returned. *)
Definition redacted_step (env : Env) (f : InputFile) (s s' : State) : Prop :=
  ∃ ds accession deid_acc pair toks sop_uid obj' saved,
    f_dcmread f = Some ds
    ∧ accession_of ds = Some accession
    ∧ accession_map env !! accession = Some deid_acc
    ∧ accession_uid_map s' !! deid_acc = Some pair
    ∧ Forall2 (fun part tok => folder_uid_map s' !! part = Some tok) (tail (f_dirs f)) toks
    ∧ redact (redactor env) (scrubbed (codec env) deid_acc pair sop_uid ds)
        (f_pixel_array f) (f_dcmwrite_ok f) = RedactReturned obj' saved
    ∧ disk s' = disk s ++ written env deid_acc toks sop_uid obj' saved
    ∧ output_manifest s' =
        output_manifest s ++ recorded env f accession deid_acc toks sop_uid obj'.

(** A row agrees with the roster and the caches of state [s]. *)
Definition row_ok (env : Env) (s : State) (row : ManifestEntry) : Prop :=
  ∃ pair dirs name toks,
    accession_map env !! m_original_accession row = Some (m_deid_accession row)
    ∧ accession_uid_map s !! m_deid_accession row = Some pair
    ∧ m_study_uid row = VText (study_uid pair)
    ∧ m_series_uid row = VText (series_uid pair)
    ∧ m_AccessionNumber row = VText (m_deid_accession row)
    ∧ m_PatientID row = VText (m_deid_accession row)
    ∧ m_StudyID row = VText (m_deid_accession row)
    ∧ m_PatientIdentityRemoved row = VText "YES"
    ∧ m_original_path row = input_dir env :: dirs ++ [name]
    ∧ m_deid_path row =
        output_path_of env (m_deid_accession row) toks (m_sop_instance_uid row)
    ∧ Forall2 (fun part tok => folder_uid_map s !! part = Some tok) (tail dirs) toks.

(** A written file agrees with the caches of state [s]. *)
Definition write_ok (env : Env) (s : State) (w : Path * DicomObject) : Prop :=
  ∃ deid_acc pair toks sop_uid,
    w.1 = output_path_of env deid_acc toks sop_uid
    ∧ accession_uid_map s !! deid_acc = Some pair
    ∧ Ds.get (tag_of AccessionNumber) (elements w.2) = Some (VText deid_acc)
    ∧ Ds.get (tag_of PatientID) (elements w.2) = Some (VText deid_acc)
    ∧ Ds.get (tag_of StudyID) (elements w.2) = Some (VText deid_acc)
    ∧ Ds.get (tag_of StudyInstanceUID) (elements w.2) = Some (VText (study_uid pair))
    ∧ Ds.get (tag_of SeriesInstanceUID) (elements w.2) = Some (VText (series_uid pair))
    ∧ Ds.get (tag_of SOPInstanceUID) (elements w.2) = Some (VText sop_uid)
    ∧ MediaStorageSOPClassUID (file_meta w.2) = Some sop_uid
    ∧ MediaStorageSOPInstanceUID (file_meta w.2) = Some sop_uid.

(** The entry of a two-dimensional array at column [x] of row [y]. *)
Definition at2 {A} (m : list (list A)) (x y : nat) : option A :=
  row ← m !! y; row !! x.

(** The design document's words for the text that Selective mode leaves
    alone: the cleaned text contains one of the keywords, or is a single
    alphabetic character. *)
Definition benign (cleaned_text : string) : bool :=
  existsb (fun k => Text.contains k cleaned_text) keywords
  || (Nat.eqb (String.length cleaned_text) 1 && Text.isalpha cleaned_text).

(** The design document's words for the detections that are masked: the
    confidence is above the threshold and, outside Full mode, the text is
    not benign. *)
Definition redacts (mode : string) (d : Detection) : bool :=
  PrimFloat.ltb threshold (prob d)
  && (String.eqb mode "Full" || negb (benign (Text.lower (Text.strip (text d))))).

(** Whether some masked detection covers pixel (x, y) with the rectangle
    the code draws for it. *)
Definition covered (mode : string) (rows cols : nat) (results : list Detection)
    (x y : nat) : bool :=
  existsb (fun d => redacts mode d
                    && in_box (corners rows cols d).1 (corners rows cols d).2
                         (Z.of_nat x) (Z.of_nat y))
          results.










(** What the loop body of the sweep makes of the top-level element at the
    tag it addresses, when the name of the tag is not passed over: the
    element is removed when the tag is private or the codec rejects the
    empty value, and cleared otherwise. *)
Definition wiped (c : Codec) (t : Tag) (o : option Value) : option Value :=
  if is_private t || clear_raises c t then None else cleared <$> o.

(** Lines 62-91: the file gets past the checks at the head of
    [process_file]. *)
Definition qualifies (env : Env) (f : InputFile) : bool :=
  f_is_dicom f &&
  match f_dcmread f with
  | None => false
  | Some ds =>
      match accession_of ds with
      | None => false
      | Some accession =>
          bool_decide (is_Some (accession_map env !! accession))
          && decoded ds (f_pixel_array f)
      end
  end.

(** The row of a file that reached the end of [process_file]. *)
Definition row_of (env : Env) (f : InputFile) (row : ManifestEntry) : Prop :=
  qualifies env f = true
  ∧ m_original_path row = input_dir env :: f_dirs f ++ [f_name f]
  ∧ ∃ ds, f_dcmread f = Some ds ∧ accession_of ds = Some (m_original_accession row).

(** The study UID and the series UID of every cached pair differ. *)
Definition pairs_distinct (s : State) : Prop :=
  map_Forall (fun _ pair => study_uid pair ≠ series_uid pair) (accession_uid_map s).

(** The clock moves between any two readings in a row: they format to
    different identifiers. *)
Fixpoint ticking (root : string) (c : list DateTime) : Prop :=
  match c with
  | n :: later =>
      match later with
      | m :: _ => format_uid root n ≠ format_uid root m
      | [] => True
      end ∧ ticking root later
  | [] => True
  end.

(** The generator faces a clock that moves, and whose next reading formats
    to something other than the identifier returned last. *)
Definition ready (s : State) : Prop :=
  ticking (org_root (uid_gen s)) (clock s)
  ∧ match clock s with
    | n :: _ => Some (format_uid (org_root (uid_gen s)) n) ≠ current_uid (uid_gen s)
    | [] => True
    end.

(** The calls of the generator that a file can take: the study and series
    UIDs, one token per folder below the first, and the SOP instance UID. *)
Definition uids_needed (f : InputFile) : nat := 3 + length (tail (f_dirs f)).


(** The state of the plan while the loop of [best_fit_decreasing] runs:
    no bin is empty, no size is negative, the free space of a bin is at
    least what the capacity leaves, and the first item of a bin did not fit
    any bin before it. *)
Definition packed (capacity : Z) (p : Plan) : Prop :=
  Forall2 (fun b f => b ≠ [] ∧ Forall (fun x => (0 <= x.2)%Z) b
                      ∧ (capacity - bsize b <= f)%Z)
          (bins p) (free_space p)
  ∧ ∀ i j bi bj, i < j → bins p !! i = Some bi → bins p !! j = Some bj →
      ∃ first rest, bj = first :: rest ∧ (capacity < bsize bi + first.2)%Z.

(** No [/] in the text. *)
Fixpoint slash_free (s : string) : bool :=
  match s with
  | EmptyString => true
  | String c r => negb (Ascii.eqb c "/") && slash_free r
  end.

(** ** Sample data: one ultrasound image per file *)

Module Sample.

(** A few entries of the DICOM data dictionary beside the keywords. *)
Definition dictionary (t : Tag) : string :=
  if decide (t = (0x0008, 0x0060)%N) then "Modality"
  else if decide (t = (0x0008, 0x0100)%N) then "Code Value"
  else if decide (t = (0x0010, 0x0030)%N) then "Patient's Birth Date"
  else if decide (t = (0x0028, 0x0010)%N) then "Rows"
  else if decide (t = (0x0028, 0x0011)%N) then "Columns"
  else if decide (t = (0x0040, 0x0275)%N) then "Request Attributes Sequence"
  else if decide (t = (0x0040, 0x1001)%N) then "Requested Procedure ID"
  else if decide (t = (0x0054, 0x0220)%N) then "View Code Sequence"
  else if is_private t then "Private tag data"
  else "".

Definition pydicom : Codec :=
  {| dictionary_description := dictionary; clear_raises := fun _ => false |}.

(** A 2 x 3 frame of signed 16-bit samples. *)
Definition frame : Frame := Gray [[100; 200; 300]; [400; 500; -6]]%Z.

Definition pixels : PixelArray := {| dtype := int16; body := Single frame |}.

(** What [dcmread] gives for a file of the accession: identity elements, a
    private element, the image attributes (12 bits stored of 16, signed), a
    kept sequence and a sequence that is not kept, and the pixel data. *)
Definition dataset (accession : string) : Dataset :=
  [ Elem (0x0008, 0x0016)%N (VText "1.2.840.10008.5.1.4.1.1.6.1");
    Elem (0x0008, 0x0018)%N (VText "1.2.3.4");
    Elem (0x0008, 0x0050)%N (VText accession);
    Elem (0x0008, 0x0060)%N (VText "US");
    Elem (0x0009, 0x0010)%N (VText "ACME");
    Elem (0x0010, 0x0010)%N (VText "DOE^JOHN");
    Elem (0x0010, 0x0020)%N (VText "MRN1");
    Elem (0x0010, 0x0030)%N (VText "19700101");
    Elem (0x0028, 0x0002)%N (VInt 1);
    Elem (0x0028, 0x0010)%N (VInt 2);
    Elem (0x0028, 0x0011)%N (VInt 3);
    Elem (0x0028, 0x0100)%N (VInt 16);
    Elem (0x0028, 0x0101)%N (VInt 12);
    Elem (0x0028, 0x0102)%N (VInt 11);
    Elem (0x0028, 0x0103)%N (VInt 1);
    Elem (0x0040, 0x0275)%N (VSeq [[Elem (0x0040, 0x1001)%N (VText accession)]]);
    Elem (0x0054, 0x0220)%N (VSeq [[Elem (0x0008, 0x0100)%N (VText "R-10206")]]);
    Elem (0x7FE0, 0x0010)%N (VBytes (tobytes int16 (body pixels))) ].

(** A detection on the upright box with corners (x0, y0) and (x1, y1). *)
Definition box (x0 y0 x1 y1 : Z) (t : string) (p : float) : Detection :=
  {| bbox := ((x0, y0), (x1, y0), (x1, y1), (x0, y1)); text := t; prob := p |}.

(** Confidence 0.9. *)
Definition sure : float := 0x1.ccccccccccccdp-1%float.

Definition detections : list Detection :=
  [ box 0 0 1 0 "DOE JOHN" sure; box 2 1 2 1 " Left" sure ].

Definition reader (mode : string) : DicomPixelRedactor :=
  {| redaction_mode := mode; readtext := fun _ _ => Some detections |}.

Definition env : Env :=
  {| codec := pydicom;
     accession_map := {[ "A123" := "P001"; "B456" := "P002" ]};
     input_dir := "in"; output_base_dir := "out";
     redactor := reader "Selective" |}.

Definition file (accession name : string) (write_ok : bool) : InputFile :=
  {| f_dirs := [accession; "series1"]; f_name := name; f_is_dicom := true;
     f_dcmread := Some (dataset accession); f_pixel_array := Some pixels;
     f_makedirs_ok := true; f_dcmwrite_ok := write_ok |}.

(** A reading of the clock on 7 March 2024, five minutes and three seconds
    past the hour. *)
Definition at_ (h us : N) : DateTime :=
  {| year := 2024; month := 3; day := 7; hour := h;
     minute := 5; second := 3; microsecond := us |}.

Definition steady : list DateTime := map (at_ 10) [1; 2; 3; 4; 5; 6]%N.

Definition first_file : InputFile := file "A123" "a.dcm" true.

Definition after_first_file : State :=
  Eval vm_compute in
    default (initial_state [])
      (state_of (process_file env first_file (initial_state steady))).

(** Two files of accession A123. *)
Definition two_files : list InputFile :=
  [ file "A123" "a.dcm" true; file "A123" "b.dcm" true ].

Definition after_two_files : State :=
  Eval vm_compute in default (initial_state []) (main env two_files steady).

(** A file whose output cannot be written. *)
Definition unwritable : InputFile := file "A123" "a.dcm" false.

(** A file of accession A123 and, one hour later to the microsecond, a file
    of accession B456. *)
Definition two_accessions : list InputFile :=
  [ file "A123" "a.dcm" true; file "B456" "c.dcm" true ].

Definition hour_apart : list DateTime :=
  [ at_ 10 1; at_ 10 2; at_ 10 3; at_ 10 4; at_ 11 1; at_ 11 2; at_ 11 4 ]%N.


End Sample.

(** ** Sample data: five children to batch *)

Module Batch.

(** Five children of sizes 6, 5, 4, 12 and 0. *)
Definition children : list Item :=
  [ (["a"], 6); (["b"], 5); (["c"], 4); (["d"], 12); (["e"], 0) ]%Z.

End Batch.

(** * Properties *)

(** ** The model at a few inputs *)

Example normalize_sop : normalize_tag "SOP Instance UID" = "sopinstanceuid".
Proof. reflexivity. Qed.

Example strip_lower : Text.lower (Text.strip "  LEFT Kidney ") = "left kidney".
Proof. reflexivity. Qed.

Example patient_name_not_replaced :
  Text.mem (normalize_tag "Patient's Name") replace_normalized = false.
Proof. reflexivity. Qed.

Example format_uid_t0 :
  format_uid "1.3.6.1.4.1.11129.5.1" t0 = "1.3.6.1.4.1.11129.5.1.20243753123".
Proof. reflexivity. Qed.

(** The sweep on the sample dataset, after the identity step: the birth
    date is cleared, the private element is gone, and so is the patient's
    name, whose dictionary name does not normalize to [patientname]. *)
Example sweep_sample :
  map (fun t => Ds.get t (elements (scrubbed Sample.pydicom "P001"
                                      {| study_uid := "1.2"; series_uid := "1.3" |} "1.4"
                                      (Sample.dataset "A123"))))
      [ (0x0010, 0x0030)%N; (0x0009, 0x0010)%N; tag_of PatientName; tag_of PatientID ]
  = [ Some (VText ""); None; Some (VText ""); Some (VText "P001") ].
Proof. vm_compute. reflexivity. Qed.

(** The redacted sample frame in both modes. *)
Example redact_frame_selective :
  redact_frame (Sample.reader "Selective") Sample.frame 1
  = Gray [[0; 0; 300]; [400; 500; -6]]%Z.
Proof. vm_compute. reflexivity. Qed.

Example redact_frame_full :
  redact_frame (Sample.reader "Full") Sample.frame 1
  = Gray [[0; 0; 300]; [400; 500; 0]]%Z.
Proof. vm_compute. reflexivity. Qed.

(** ** Datasets: lookups after updates *)

Module DsFacts.

Lemma get_update t t' v ds :
  Ds.get t' (Ds.update t v ds) =
  if decide (t = t') then (fun _ => v) <$> Ds.get t ds else Ds.get t' ds.
Proof.
  induction ds as [|[u w] ds IH]; simpl.
  - by case_decide.
  - destruct (decide (u = t)) as [->|Hut]; simpl.
    + repeat case_decide; simplify_eq; done.
    + rewrite IH. repeat case_decide; simplify_eq; done.
Qed.

Lemma get_app t ds1 ds2 :
  Ds.get t (ds1 ++ ds2) =
  match Ds.get t ds1 with Some v => Some v | None => Ds.get t ds2 end.
Proof.
  induction ds1 as [|[u w] ds1 IH]; simpl; [done|].
  by case_decide.
Qed.

Lemma get_set t t' v ds :
  Ds.get t' (Ds.set t v ds) = if decide (t = t') then Some v else Ds.get t' ds.
Proof.
  unfold Ds.set, Ds.has.
  destruct (Ds.get t ds) as [w|] eqn:Hg.
  - rewrite get_update, Hg. by case_decide.
  - rewrite get_app. simpl.
    destruct (decide (t = t')) as [<-|Hne].
    + by rewrite Hg.
    + by destruct (Ds.get t' ds).
Qed.

Lemma get_remove t t' ds :
  Ds.get t' (Ds.remove t ds) = if decide (t = t') then None else Ds.get t' ds.
Proof.
  unfold Ds.remove.
  induction ds as [|[u w] ds IH].
  - simpl. by case_decide.
  - rewrite filter_cons. simpl.
    destruct (decide (u ≠ t)) as [Hne|Heq]; simpl.
    + rewrite IH. repeat case_decide; simplify_eq; done.
    + apply dec_stable in Heq as ->.
      rewrite IH. repeat case_decide; simplify_eq; done.
Qed.

Lemma get_set_ne t t' v ds : t ≠ t' → Ds.get t' (Ds.set t v ds) = Ds.get t' ds.
Proof. intros. rewrite get_set. by rewrite decide_False. Qed.

Lemma get_set_eq t v ds : Ds.get t (Ds.set t v ds) = Some v.
Proof. rewrite get_set. by rewrite decide_True. Qed.

End DsFacts.

(** ** The sweep *)

Section SweepFacts.

Context (c : Codec).

Lemma sweep_elem_spared ds e :
  spared c (e_tag e) = true → sweep_elem c ds e = ds.
Proof.
  unfold spared, sweep_elem. intros H.
  destruct (Text.mem _ keep_normalized); [done|].
  rewrite orb_false_l in H. by rewrite H.
Qed.

Lemma del_other t t' ds ds' :
  Ds.del t ds = Some ds' → t ≠ t' → Ds.get t' ds' = Ds.get t' ds.
Proof.
  unfold Ds.del. destruct (Ds.has t ds); [|done].
  intros [= <-] Hne. rewrite DsFacts.get_remove. by rewrite decide_False.
Qed.

Lemma del_same t ds ds' : Ds.del t ds = Some ds' → Ds.get t ds' = None.
Proof.
  unfold Ds.del. destruct (Ds.has t ds); [|done].
  intros [= <-]. rewrite DsFacts.get_remove. by rewrite decide_True.
Qed.

Lemma del_none t ds : Ds.del t ds = None → Ds.get t ds = None.
Proof.
  unfold Ds.del, Ds.has. by destruct (Ds.get t ds).
Qed.

Lemma clear_other t t' ds ds' :
  Ds.clear c t ds = Some ds' → t ≠ t' → Ds.get t' ds' = Ds.get t' ds.
Proof.
  unfold Ds.clear. destruct (Ds.get t ds); [|done].
  destruct (clear_raises c t); [done|].
  intros [= <-] Hne. rewrite DsFacts.get_update. by rewrite decide_False.
Qed.

Lemma clear_same t ds ds' :
  Ds.clear c t ds = Some ds' →
  ∃ v, Ds.get t ds = Some v ∧ Ds.get t ds' = Some (cleared v).
Proof.
  unfold Ds.clear. destruct (Ds.get t ds) as [v|] eqn:Hg; [|done].
  destruct (clear_raises c t); [done|].
  intros [= <-]. exists v. split; [done|].
  rewrite DsFacts.get_update, decide_True, Hg; done.
Qed.

Lemma sweep_elem_other ds e t :
  e_tag e ≠ t → Ds.get t (sweep_elem c ds e) = Ds.get t ds.
Proof.
  intros Hne. unfold sweep_elem.
  repeat match goal with
         | |- context [if ?b then _ else _] => destruct b
         | |- context [match ?o with Some _ => _ | None => _ end] =>
             destruct o eqn:?
         end;
    eauto using del_other, clear_other.
Qed.

Lemma is_empty_cleared v : is_empty (cleared v) = true.
Proof. by destruct v. Qed.

Lemma sweep_elem_emptied ds e :
  spared c (e_tag e) = false → emptied (e_tag e) (sweep_elem c ds e).
Proof.
  unfold spared, sweep_elem, emptied. intros H.
  apply orb_false_iff in H as [-> ->].
  destruct (is_private (e_tag e)).
  - destruct (Ds.del _ ds) as [ds'|] eqn:Hd.
    + by rewrite (del_same _ _ _ Hd).
    + by rewrite (del_none _ _ Hd).
  - destruct (Ds.clear c _ ds) as [ds'|] eqn:Hc.
    + apply clear_same in Hc as (v & _ & ->). apply is_empty_cleared.
    + destruct (Ds.del _ ds) as [ds'|] eqn:Hd.
      * by rewrite (del_same _ _ _ Hd).
      * by rewrite (del_none _ _ Hd).
Qed.

Lemma sweep_elem_keeps_emptied ds e t :
  spared c t = false → emptied t ds → emptied t (sweep_elem c ds e).
Proof.
  intros Hs He. destruct (decide (e_tag e = t)) as [<-|Hne].
  - by apply sweep_elem_emptied.
  - unfold emptied. by rewrite sweep_elem_other.
Qed.

Lemma fold_sweep_spared l ds t :
  spared c t = true →
  Ds.get t (fold_left (sweep_elem c) l ds) = Ds.get t ds.
Proof.
  intros Hs. revert ds. induction l as [|e l IH]; intros ds; simpl; [done|].
  rewrite IH. destruct (decide (e_tag e = t)) as [<-|Hne].
  - by rewrite sweep_elem_spared.
  - by apply sweep_elem_other.
Qed.

(** The sweep leaves alone every top-level element whose normalized name
    is in the keep-list or the replace set. *)
Lemma sweep_spared ds t :
  spared c t = true → Ds.get t (sweep c ds) = Ds.get t ds.
Proof. apply fold_sweep_spared. Qed.

Lemma fold_sweep_emptied l ds t :
  spared c t = false →
  emptied t ds ∨ (∃ e, e ∈ l ∧ e_tag e = t) →
  emptied t (fold_left (sweep_elem c) l ds).
Proof.
  intros Hs. revert ds. induction l as [|e l IH]; intros ds [He|(e' & Hin & Ht)]; simpl.
  - done.
  - by apply elem_of_nil in Hin.
  - apply IH. left. by apply sweep_elem_keeps_emptied.
  - apply elem_of_cons in Hin as [->|Hin].
    + apply IH. left. subst t. by apply sweep_elem_emptied.
    + apply IH. right. eauto.
Qed.

Lemma get_elem_of t v (ds : Dataset) : Ds.get t ds = Some v → Elem t v ∈ ds.
Proof.
  induction ds as [|[u w] ds IH]; simpl; [done|].
  case_decide as Hd.
  - intros [= ->]. subst. apply list_elem_of_here.
  - intros H. apply list_elem_of_further. auto.
Qed.

Lemma elem_of_iterall e (ds : Dataset) : e ∈ ds → e ∈ iterall ds.
Proof.
  intros Hin. unfold iterall. apply list_elem_of_In, in_flat_map.
  exists e. split; [by apply list_elem_of_In|].
  destruct e as [t v]. simpl. by left.
Qed.

(** Every top-level element that the sweep does not pass over ends up
    removed or with an empty value. *)
Lemma sweep_top_level_emptied ds t v :
  Ds.get t ds = Some v → spared c t = false → emptied t (sweep c ds).
Proof.
  intros Hg Hs. apply fold_sweep_emptied; [done|].
  right. exists (Elem t v). split; [|done].
  by apply elem_of_iterall, get_elem_of.
Qed.

End SweepFacts.

(** C6, at an element nested in a kept sequence: the normalized name of
    the nested element is in neither list, and after the sweep the
    sequence still holds it with the value it came with. *)
Theorem C6_nested_element_survives :
  spared Sample.pydicom (0x0040, 0x1001)%N = false
  ∧ Elem (0x0040, 0x1001)%N (VText "A123") ∈ iterall (Sample.dataset "A123")
  ∧ Ds.get (0x0040, 0x0275)%N (sweep Sample.pydicom (Sample.dataset "A123"))
    = Some (VSeq [[Elem (0x0040, 0x1001)%N (VText "A123")]])
  ∧ is_empty (VText "A123") = false.
Proof.
  split; [vm_compute; reflexivity|].
  split; [|split; [vm_compute; reflexivity|reflexivity]].
  apply list_elem_of_In. vm_compute. tauto.
Qed.

(** ** The UID generator *)

Lemma generate_spec g c uid g' c' :
  generate g c = Some (uid, g', c') →
  Some uid ≠ current_uid g ∧ current_uid g' = Some uid ∧ org_root g' = org_root g
  ∧ ∃ n skipped, c = skipped ++ n :: c' ∧ uid = format_uid (org_root g) n
     ∧ Forall (fun m => Some (format_uid (org_root g) m) = current_uid g) skipped.
Proof.
  revert uid g' c'. induction c as [|n c IH]; intros uid g' c'; simpl; [done|].
  case_decide as Hd.
  - intros H. destruct (IH _ _ _ H) as (H1 & H2 & H3 & m & sk & -> & H4 & H5).
    repeat split; try done. exists m, (n :: sk). repeat split; try done.
    by constructor.
  - intros [= <- <- <-]. repeat split; try done.
    exists n, []. repeat split; try done.
Qed.

(** The loop ends as soon as the clock shows a reading that formats to
    something else than the UID returned last. *)
Lemma generate_returns g c n :
  n ∈ c → Some (format_uid (org_root g) n) ≠ current_uid g →
  is_Some (generate g c).
Proof.
  induction c as [|m c IH]; intros Hin Hne; [by apply elem_of_nil in Hin|].
  simpl. case_decide as Hd; [|done].
  apply elem_of_cons in Hin as [->|Hin]; [done|]. by apply IH.
Qed.

(** C4: two consecutive calls of [generate] never return the same
    identifier, whatever the clock reads between and during them. *)
Theorem C4_generate_differs_from_previous g c uid1 g1 c1 c' uid2 g2 c2 :
  generate g c = Some (uid1, g1, c1) →
  generate g1 c' = Some (uid2, g2, c2) →
  uid2 ≠ uid1.
Proof.
  intros H1 H2.
  apply generate_spec in H1 as (_ & Hcur & _).
  apply generate_spec in H2 as (Hne & _).
  rewrite Hcur in Hne. congruence.
Qed.

(** Two calls in a row at the sample clock: the second call reads the
    microsecond of the first again, waits for the next reading, and returns
    another identifier. *)
Lemma C4_sample :
  ∃ uid1 g1 uid2 g2,
    generate UIDGenerator_init [Sample.at_ 10 1] = Some (uid1, g1, [])
    ∧ generate g1 [Sample.at_ 10 1; Sample.at_ 10 2] = Some (uid2, g2, [])
    ∧ uid2 ≠ uid1.
Proof.
  eexists _, _, _, _. split; [reflexivity|]. split; [reflexivity|].
  eapply (C4_generate_differs_from_previous UIDGenerator_init [Sample.at_ 10 1]
            _ _ _ [Sample.at_ 10 1; Sample.at_ 10 2]);
    reflexivity.
Defined.

(** ** Identifier allocation *)

Ltac unfold_M :=
  unfold mbind, M_bind, mret, M_ret, get_state, modify, raise, must in *.

Lemma grows_refl s : grows s s.
Proof. by split. Qed.

Lemma grows_trans s1 s2 s3 : grows s1 s2 → grows s2 s3 → grows s1 s3.
Proof. intros [? ?] [? ?]. split; by etrans. Qed.

Lemma same_logs_refl s : same_logs s s.
Proof. by split. Qed.

Lemma same_logs_trans s1 s2 s3 : same_logs s1 s2 → same_logs s2 s3 → same_logs s1 s3.
Proof. intros [? ?] [? ?]. split; congruence. Qed.

#[local] Hint Resolve grows_refl same_logs_refl : core.

Lemma gen_uid_inv s o :
  gen_uid s = o →
  o = Stalled
  ∨ ∃ uid g c, generate (uid_gen s) (clock s) = Some (uid, g, c)
               ∧ o = Returned uid (set_generator g c s).
Proof.
  unfold gen_uid. destruct (generate _ _) as [[[uid g] c]|]; intros <-; eauto 6.
Qed.

Lemma gen_uid_returned s uid s' :
  gen_uid s = Returned uid s' →
  accession_uid_map s' = accession_uid_map s
  ∧ folder_uid_map s' = folder_uid_map s
  ∧ same_logs s s'
  ∧ current_uid (uid_gen s') = Some uid
  ∧ Some uid ≠ current_uid (uid_gen s).
Proof.
  intros H. apply gen_uid_inv in H as [?|(u & g & c & Hg & [= <- ->])]; [done|].
  apply generate_spec in Hg as (? & ? & _). by repeat split.
Qed.

Lemma gen_uid_not_raised s s' : gen_uid s ≠ Raised s'.
Proof.
  unfold gen_uid. by destruct (generate _ _) as [[[uid g] c]|].
Qed.

Lemma ensure_uid_pair_not_raised deid s s' : ensure_uid_pair deid s ≠ Raised s'.
Proof.
  unfold ensure_uid_pair. unfold_M.
  destruct (accession_uid_map s !! deid); [done|].
  destruct (gen_uid s) as [u1 s1| |] eqn:H1; [|by apply gen_uid_not_raised in H1|done].
  destruct (gen_uid s1) as [u2 s2| |] eqn:H2; [|by apply gen_uid_not_raised in H2|done].
  done.
Qed.

Lemma ensure_uid_pair_returned deid s u s' :
  ensure_uid_pair deid s = Returned u s' →
  grows s s' ∧ same_logs s s' ∧ is_Some (accession_uid_map s' !! deid).
Proof.
  unfold ensure_uid_pair. unfold_M.
  destruct (accession_uid_map s !! deid) as [p|] eqn:Hp.
  - intros [= <- <-]. rewrite Hp. eauto.
  - destruct (gen_uid s) as [u1 s1| |] eqn:H1; [|done..].
    destruct (gen_uid s1) as [u2 s2| |] eqn:H2; [|done..].
    intros [= <- <-].
    apply gen_uid_returned in H1 as (Ha1 & Hf1 & [Hm1 Hd1] & _).
    apply gen_uid_returned in H2 as (Ha2 & Hf2 & [Hm2 Hd2] & _).
    unfold grows, same_logs. simpl. rewrite Ha2, Ha1, Hf2, Hf1, Hm2, Hm1, Hd2, Hd1.
    repeat split; try done.
    + by apply insert_subseteq.
    + rewrite lookup_insert_eq. eauto.
Qed.

(** Once the pair of a pseudonym is cached, [ensure_uid_pair] changes
    nothing. *)
Lemma ensure_uid_pair_cached deid s :
  is_Some (accession_uid_map s !! deid) → ensure_uid_pair deid s = Returned tt s.
Proof.
  intros [p Hp]. unfold ensure_uid_pair. unfold_M. by rewrite Hp.
Qed.

Lemma token_for_not_raised part s s' : token_for part s ≠ Raised s'.
Proof.
  unfold token_for. unfold_M.
  destruct (folder_uid_map s !! part); [done|].
  destruct (gen_uid s) as [u1 s1| |] eqn:H1; [|by apply gen_uid_not_raised in H1|done].
  done.
Qed.

Lemma token_for_returned part s tok s' :
  token_for part s = Returned tok s' →
  grows s s' ∧ same_logs s s' ∧ folder_uid_map s' !! part = Some tok.
Proof.
  unfold token_for. unfold_M.
  destruct (folder_uid_map s !! part) as [p|] eqn:Hp.
  - intros [= <- <-]. eauto.
  - destruct (gen_uid s) as [u1 s1| |] eqn:H1; [|done..].
    intros [= <- <-].
    apply gen_uid_returned in H1 as (Ha1 & Hf1 & [Hm1 Hd1] & _).
    unfold grows, same_logs. simpl. rewrite Ha1, Hf1, Hm1, Hd1.
    repeat split; try done.
    + by apply insert_subseteq.
    + by rewrite lookup_insert_eq.
Qed.


Lemma tokens_for_not_raised parts s s' : tokens_for parts s ≠ Raised s'.
Proof.
  revert s s'. induction parts as [|part parts IH]; intros s s'; simpl; [done|].
  unfold_M.
  destruct (token_for part s) as [tok s1| |] eqn:H1;
    [|by apply token_for_not_raised in H1|done].
  destruct (tokens_for parts s1) as [toks s2| |] eqn:H2;
    [done|by apply IH in H2|done].
Qed.

Lemma tokens_for_returned parts s toks s' :
  tokens_for parts s = Returned toks s' →
  grows s s' ∧ same_logs s s'
  ∧ Forall2 (fun part tok => folder_uid_map s' !! part = Some tok) parts toks.
Proof.
  revert s toks. induction parts as [|part parts IH]; intros s toks; simpl.
  - unfold_M. intros [= <- <-]. repeat split; auto.
  - unfold_M.
    destruct (token_for part s) as [tok s1| |] eqn:H1; [|done..].
    destruct (tokens_for parts s1) as [toks' s2| |] eqn:H2; [|done..].
    intros [= <- <-].
    apply token_for_returned in H1 as (Hg1 & Hl1 & Ht).
    apply IH in H2 as (Hg2 & Hl2 & Hts).
    split; [by eapply grows_trans|]. split; [by eapply same_logs_trans|].
    constructor; [|done].
    destruct Hg2 as [_ Hf]. by eapply lookup_weaken.
Qed.

Lemma allocate_ids_not_raised deid parts s s' : allocate_ids deid parts s ≠ Raised s'.
Proof.
  unfold allocate_ids. unfold_M.
  destruct (ensure_uid_pair deid s) as [u s1| |] eqn:H1;
    [|by apply ensure_uid_pair_not_raised in H1|done].
  destruct (tokens_for (tail parts) s1) as [toks s2| |] eqn:H2;
    [|by apply tokens_for_not_raised in H2|done].
  destruct (gen_uid s2) as [sop s3| |] eqn:H3;
    [done|by apply gen_uid_not_raised in H3|done].
Qed.

Lemma allocate_ids_returned deid parts s toks sop s' :
  allocate_ids deid parts s = Returned (toks, sop) s' →
  grows s s' ∧ same_logs s s'
  ∧ is_Some (accession_uid_map s' !! deid)
  ∧ Forall2 (fun part tok => folder_uid_map s' !! part = Some tok) (tail parts) toks
  ∧ current_uid (uid_gen s') = Some sop.
Proof.
  unfold allocate_ids. unfold_M.
  destruct (ensure_uid_pair deid s) as [u s1| |] eqn:H1; [|done..].
  destruct (tokens_for (tail parts) s1) as [toks' s2| |] eqn:H2; [|done..].
  destruct (gen_uid s2) as [sop' s3| |] eqn:H3; [|done..].
  intros [= <- <- <-].
  apply ensure_uid_pair_returned in H1 as (Hg1 & Hl1 & [p Hp]).
  apply tokens_for_returned in H2 as (Hg2 & Hl2 & Hts).
  apply gen_uid_returned in H3 as (Ha3 & Hf3 & Hl3 & Hcur & _).
  assert (grows s2 s3) as Hg3 by (split; [by rewrite Ha3|by rewrite Hf3]).
  split; [eauto using grows_trans|].
  split; [eauto using same_logs_trans|].
  split; [|split; [|done]].
  - rewrite Ha3. exists p. destruct Hg2 as [Ha _]. by eapply lookup_weaken.
  - by rewrite Hf3.
Qed.

(** ** One file *)


Lemma write_and_record_step env f ds accession deid_acc toks sop_uid s s' :
  state_of (write_and_record env f ds accession deid_acc toks sop_uid s) = Some s' →
  s' = s
  ∨ ∃ pair obj' saved,
      accession_uid_map s !! deid_acc = Some pair
      ∧ redact (redactor env) (scrubbed (codec env) deid_acc pair sop_uid ds)
          (f_pixel_array f) (f_dcmwrite_ok f) = RedactReturned obj' saved
      ∧ accession_uid_map s' = accession_uid_map s
      ∧ folder_uid_map s' = folder_uid_map s
      ∧ disk s' = disk s ++ written env deid_acc toks sop_uid obj' saved
      ∧ output_manifest s' =
          output_manifest s ++ recorded env f accession deid_acc toks sop_uid obj'.
Proof.
  unfold write_and_record. unfold_M.
  destruct (f_makedirs_ok f); unfold_M; cbv beta iota; [|intros [= <-]; by left].
  destruct (accession_uid_map s !! deid_acc) as [pair|] eqn:Hp; unfold_M; cbv beta iota;
    [|intros [= <-]; by left].
  destruct (redact _ _ _ _) as [obj' saved|] eqn:Hr; unfold_M; cbv beta iota;
    [|intros [= <-]; by left].
  intros H. right. exists pair, obj', saved.
  split; [done|]. split; [done|].
  unfold recorded, written.
  destruct saved; unfold_M; cbv beta iota in *;
    destruct (manifest_entry _ _ _ _ _ _) as [row|]; unfold_M; cbv beta iota in *;
    injection H as <-; cbn [accession_uid_map folder_uid_map disk output_manifest
                            set_disk set_output_manifest];
    rewrite ?app_nil_r; done.
Qed.

Lemma write_and_record_not_stalled env f ds accession deid_acc toks sop_uid s :
  write_and_record env f ds accession deid_acc toks sop_uid s ≠ Stalled.
Proof.
  unfold write_and_record. unfold_M.
  destruct (f_makedirs_ok f); unfold_M; cbv beta iota; [|done].
  destruct (accession_uid_map s !! deid_acc); unfold_M; cbv beta iota; [|done].
  destruct (redact _ _ _ _) as [obj' saved|]; unfold_M; cbv beta iota; [|done].
  destruct saved; unfold_M; cbv beta iota; by destruct (manifest_entry _ _ _ _ _ _).
Qed.

(** What one call of [process_file] does to the state: the caches grow,
    and either nothing is written or recorded, or the file went through the
    redactor. *)
Lemma process_file_step env f s s' :
  state_of (process_file env f s) = Some s' →
  grows s s' ∧ (same_logs s s' ∨ redacted_step env f s s').
Proof.
  unfold process_file.
  destruct (f_is_dicom f); cbn [negb]; [|intros [= <-]; auto].
  destruct (f_dcmread f) as [ds|] eqn:Hds; [|intros [= <-]; auto].
  destruct (accession_of ds) as [accession|] eqn:Hacc; [|intros [= <-]; auto].
  destruct (accession_map env !! accession) as [deid_acc|] eqn:Hdeid;
    [|intros [= <-]; auto].
  destruct (decoded ds (f_pixel_array f)); [|intros [= <-]; auto].
  unfold process_decoded. unfold mbind at 1. unfold M_bind at 1.
  destruct (allocate_ids deid_acc (f_dirs f) s) as [[toks sop_uid] s1| |] eqn:Hal;
    [|by apply allocate_ids_not_raised in Hal|done].
  apply allocate_ids_returned in Hal as (Hg & Hl & [pair Hp] & Hts & _).
  simpl. intros H.
  apply write_and_record_step in H as [->|(pair' & obj' & saved & Hp' & Hr & Ha & Hf & Hd & Hm)].
  { auto. }
  split.
  { unfold grows. rewrite Ha, Hf. exact Hg. }
  right. destruct Hl as [Hm1 Hd1].
  exists ds, accession, deid_acc, pair', toks, sop_uid, obj', saved.
  rewrite Ha, Hf, Hd, Hm, Hm1, Hd1. rewrite Hp in Hp'. by injection Hp' as <-.
Qed.

(** An invariant of the state that every call of [process_file] keeps
    holds at the end of the run. *)
Lemma main_loop_invariant env (I : State → Prop) files s s' :
  (∀ f s1 s2, f ∈ files → I s1 → state_of (process_file env f s1) = Some s2 → I s2) →
  I s → main_loop env files s = Some s' → I s'.
Proof.
  revert s. induction files as [|f files IH]; intros s Hstep Hs; simpl.
  - by intros [= <-].
  - destruct (process_file env f s) as [u s1|s1|] eqn:Hp; [| |done].
    + apply IH.
      * intros g ? ? Hin. apply Hstep. by apply list_elem_of_further.
      * eapply (Hstep f s); [apply list_elem_of_here|done|by rewrite Hp].
    + apply IH.
      * intros g ? ? Hin. apply Hstep. by apply list_elem_of_further.
      * eapply (Hstep f s); [apply list_elem_of_here|done|by rewrite Hp].
Qed.

(** ** What the redactor and the scrubbing leave in place *)

Lemma redact_get r obj pa ok obj' saved t :
  redact r obj pa ok = RedactReturned obj' saved →
  t ∉ reasserted →
  Ds.get t (elements obj') = Ds.get t (elements obj).
Proof.
  unfold reasserted. rewrite !not_elem_of_cons.
  intros H (H1 & H2 & H3 & H4 & _). revert H. unfold redact.
  destruct (Ds.has _ _); cbn [negb]; [|by intros [= <- _]].
  destruct pa as [arr|]; [|by intros [= <- _]].
  destruct (Ds.get (tag_of BitsAllocated) _) as [bits|] eqn:Hb; [|done].
  destruct (py_int (default _ _)) as [samples|]; [|done].
  destruct (frame_count _ _ _) as [frames|]; [|done].
  destruct (redact_array _ _ _ _) as [arr'|]; [|by intros [= <- _]].
  assert (Ds.get t
            (Ds.set (tag_of BitsAllocated) bits
               (Ds.set (tag_of PixelData)
                  (VBytes (tobytes (dtype arr) (astype (dtype arr) arr')))
                  (elements obj))) = Ds.get t (elements obj)) as Hpre.
  { rewrite DsFacts.get_set. case_decide as Hd.
    - subst t. by rewrite Hb.
    - by rewrite DsFacts.get_set_ne. }
  destruct (py_int bits) as [b|]; intros [= <- _]; cbn [elements with_elements];
    rewrite !DsFacts.get_set_ne by done; exact Hpre.
Qed.

Lemma redact_file_meta r obj pa ok obj' saved :
  redact r obj pa ok = RedactReturned obj' saved →
  MediaStorageSOPClassUID (file_meta obj') = MediaStorageSOPClassUID (file_meta obj)
  ∧ MediaStorageSOPInstanceUID (file_meta obj') = MediaStorageSOPInstanceUID (file_meta obj).
Proof.
  unfold redact.
  destruct (Ds.has _ _); cbn [negb]; [|by intros [= <- _]].
  destruct pa as [arr|]; [|by intros [= <- _]].
  destruct (Ds.get (tag_of BitsAllocated) _) as [bits|]; [|done].
  destruct (py_int (default _ _)) as [samples|]; [|done].
  destruct (frame_count _ _ _) as [frames|]; [|done].
  destruct (redact_array _ _ _ _) as [arr'|]; [|by intros [= <- _]].
  destruct (py_int bits) as [b|]; by intros [= <- _].
Qed.

Section Scrubbed.

Context (c : Codec) (deid_acc : string) (pair : UIDPair) (sop_uid : string).

Lemma keyword_name k : elem_name c (tag_of k) = description k.
Proof. by destruct k. Qed.

Lemma spared_replaced k :
  k ∈ [AccessionNumber; PatientID; StudyID; PatientIdentityRemoved;
       StudyInstanceUID; SeriesInstanceUID; SOPInstanceUID; SOPClassUID] →
  spared c (tag_of k) = true.
Proof.
  unfold spared. rewrite keyword_name. intros H.
  repeat (apply elem_of_cons in H as [->|H]; [by vm_compute|]).
  by apply elem_of_nil in H.
Qed.

Lemma replace_identity_get t ds :
  Ds.get t (replace_identity deid_acc pair sop_uid ds) =
  if decide (tag_of SOPInstanceUID = t) then Some (VText sop_uid)
  else if decide (tag_of SeriesInstanceUID = t) then Some (VText (series_uid pair))
  else if decide (tag_of StudyInstanceUID = t) then Some (VText (study_uid pair))
  else if decide (tag_of PatientIdentityRemoved = t) then Some (VText "YES")
  else if decide (tag_of StudyID = t) then Some (VText deid_acc)
  else if decide (tag_of PatientName = t) then Some (VText deid_acc)
  else if decide (tag_of PatientID = t) then Some (VText deid_acc)
  else if decide (tag_of AccessionNumber = t) then Some (VText deid_acc)
  else Ds.get t ds.
Proof. unfold replace_identity. by rewrite !DsFacts.get_set. Qed.

(** The identity values that the sweep leaves as they were assigned. *)
Lemma scrubbed_identity ds :
  let out := elements (scrubbed c deid_acc pair sop_uid ds) in
  Ds.get (tag_of AccessionNumber) out = Some (VText deid_acc)
  ∧ Ds.get (tag_of PatientID) out = Some (VText deid_acc)
  ∧ Ds.get (tag_of StudyID) out = Some (VText deid_acc)
  ∧ Ds.get (tag_of PatientIdentityRemoved) out = Some (VText "YES")
  ∧ Ds.get (tag_of StudyInstanceUID) out = Some (VText (study_uid pair))
  ∧ Ds.get (tag_of SeriesInstanceUID) out = Some (VText (series_uid pair))
  ∧ Ds.get (tag_of SOPInstanceUID) out = Some (VText sop_uid).
Proof.
  cbn [elements scrubbed].
  repeat split;
    (rewrite sweep_spared by (apply spared_replaced; set_solver));
    by rewrite replace_identity_get.
Qed.

(** An element named in the keep-list, other than the SOP instance UID,
    comes out of the scrubbing as it went in. *)
Lemma scrubbed_kept ds t :
  Text.mem (normalize_tag (elem_name c t)) keep_normalized = true →
  t ≠ tag_of SOPInstanceUID →
  Ds.get t (elements (scrubbed c deid_acc pair sop_uid ds)) = Ds.get t ds.
Proof.
  intros Hk Hne. cbn [elements scrubbed].
  rewrite sweep_spared by (unfold spared; by rewrite Hk).
  rewrite replace_identity_get.
  repeat (case_decide as Hd;
          [subst t; first [done | by rewrite keyword_name in Hk; vm_compute in Hk]
          |clear Hd]).
  done.
Qed.

End Scrubbed.

(** ** The run: what every manifest row and every written file satisfy *)

Lemma tokens_weaken s s' parts toks :
  grows s s' →
  Forall2 (fun part tok => folder_uid_map s !! part = Some tok) parts toks →
  Forall2 (fun part tok => folder_uid_map s' !! part = Some tok) parts toks.
Proof.
  intros [_ Hf] H. eapply Forall2_impl; [exact H|].
  intros part tok Hl. cbv beta in *. by eapply lookup_weaken.
Qed.

Lemma row_ok_weaken env s s' row : grows s s' → row_ok env s row → row_ok env s' row.
Proof.
  intros Hg (pair & dirs & name & toks & H1 & H2 & H3 & H4 & H5 & H6 & H7 & H8 & H9 & H10 & H11).
  exists pair, dirs, name, toks. repeat split; try done.
  - destruct Hg as [Ha _]. by eapply lookup_weaken.
  - by eapply tokens_weaken.
Qed.

Lemma write_ok_weaken env s s' w : grows s s' → write_ok env s w → write_ok env s' w.
Proof.
  intros [Ha _] (deid_acc & pair & toks & sop_uid & H1 & H2 & H3).
  exists deid_acc, pair, toks, sop_uid. repeat split; try apply H3; try done.
  by eapply lookup_weaken.
Qed.

Lemma manifest_entry_some full_path output_path accession deid_acc sop_uid ds row :
  manifest_entry full_path output_path accession deid_acc sop_uid ds = Some row →
  m_original_path row = full_path ∧ m_deid_path row = output_path
  ∧ m_original_accession row = accession ∧ m_deid_accession row = deid_acc
  ∧ m_sop_instance_uid row = sop_uid
  ∧ Ds.get (tag_of StudyInstanceUID) ds = Some (m_study_uid row)
  ∧ Ds.get (tag_of SeriesInstanceUID) ds = Some (m_series_uid row)
  ∧ Ds.get (tag_of AccessionNumber) ds = Some (m_AccessionNumber row)
  ∧ Ds.get (tag_of PatientIdentityRemoved) ds = Some (m_PatientIdentityRemoved row)
  ∧ Ds.get (tag_of PatientName) ds = Some (m_PatientName row)
  ∧ Ds.get (tag_of StudyID) ds = Some (m_StudyID row)
  ∧ Ds.get (tag_of PatientID) ds = Some (m_PatientID row).
Proof.
  unfold manifest_entry. intros H.
  repeat match type of H with
         | context [Ds.get ?t ds] => destruct (Ds.get t ds); [|done]
         end.
  simpl in H. injection H as <-. by repeat split.
Qed.

(** The identity elements pass through the redactor. *)
Lemma redact_identity r c deid_acc pair sop_uid ds pa ok obj' saved k :
  redact r (scrubbed c deid_acc pair sop_uid ds) pa ok = RedactReturned obj' saved →
  k ∈ [AccessionNumber; PatientID; PatientName; StudyID; PatientIdentityRemoved;
       StudyInstanceUID; SeriesInstanceUID; SOPInstanceUID; SOPClassUID] →
  Ds.get (tag_of k) (elements obj')
  = Ds.get (tag_of k) (elements (scrubbed c deid_acc pair sop_uid ds)).
Proof.
  intros Hr Hk. eapply redact_get; [done|].
  repeat (apply elem_of_cons in Hk as [->|Hk];
          [intros H; unfold reasserted in H;
           repeat (apply elem_of_cons in H as [H|H]; [by vm_compute in H|]);
           by apply elem_of_nil in H|]).
  by apply elem_of_nil in Hk.
Qed.

Lemma redacted_step_ok env f s s' :
  redacted_step env f s s' →
  ∃ rows ws,
    output_manifest s' = output_manifest s ++ rows
    ∧ disk s' = disk s ++ ws
    ∧ Forall (row_ok env s') rows
    ∧ Forall (write_ok env s') ws.
Proof.
  intros (ds & accession & deid_acc & pair & toks & sop_uid & obj' & saved
          & Hds & Hacc & Hdeid & Hpair & Htoks & Hr & Hd & Hm).
  eexists _, _. split; [exact Hm|]. split; [exact Hd|].
  pose proof (scrubbed_identity (codec env) deid_acc pair sop_uid ds)
    as (I1 & I2 & I3 & I4 & I5 & I6 & I7).
  assert (∀ k, k ∈ [AccessionNumber; PatientID; PatientName; StudyID;
                    PatientIdentityRemoved; StudyInstanceUID; SeriesInstanceUID;
                    SOPInstanceUID; SOPClassUID] →
               Ds.get (tag_of k) (elements obj')
               = Ds.get (tag_of k)
                   (elements (scrubbed (codec env) deid_acc pair sop_uid ds))) as Hid.
  { intros k Hk. by eapply redact_identity. }
  split.
  - unfold recorded.
    destruct (manifest_entry _ _ _ _ _ _) as [row|] eqn:Hrow; [|constructor].
    apply manifest_entry_some in Hrow
      as (R1 & R2 & R3 & R4 & R5 & R6 & R7 & R8 & R9 & R10 & R11 & R12).
    constructor; [|constructor].
    exists pair, (f_dirs f), (f_name f), toks.
    rewrite R3, R4, R5.
    rewrite Hid in R6, R7, R8, R9, R11, R12 by set_solver.
    repeat split; try done; congruence.
  - unfold written. destruct saved; [|constructor].
    constructor; [|constructor].
    exists deid_acc, pair, toks, sop_uid. cbn [fst snd].
    destruct (redact_file_meta _ _ _ _ _ _ Hr) as [M1 M2].
    rewrite !Hid by set_solver. rewrite M1, M2.
    repeat split; done.
Qed.

(** At the end of a run every row and every written file agree with the
    roster and with the final caches. *)
Lemma run_ok env files readings s :
  main env files readings = Some s →
  Forall (row_ok env s) (output_manifest s) ∧ Forall (write_ok env s) (disk s).
Proof.
  unfold main.
  apply (main_loop_invariant env
           (fun s => Forall (row_ok env s) (output_manifest s)
                     ∧ Forall (write_ok env s) (disk s))).
  - intros f s1 s2 _ [Hrows Hws] Hstep.
    apply process_file_step in Hstep as [Hg [[Hm Hd]|Hred]].
    + rewrite Hm, Hd. split.
      * eapply Forall_impl; [exact Hrows|]. intros ?. by apply row_ok_weaken.
      * eapply Forall_impl; [exact Hws|]. intros ?. by apply write_ok_weaken.
    + apply redacted_step_ok in Hred as (rows & ws & -> & -> & Hr & Hw).
      split; apply Forall_app; split; try done.
      * eapply Forall_impl; [exact Hrows|]. intros ?. by apply row_ok_weaken.
      * eapply Forall_impl; [exact Hws|]. intros ?. by apply write_ok_weaken.
  - split; constructor.
Qed.

(** C5: the study/series UID pair of a pseudonym is allocated on first
    encounter and never reassigned: [ensure_uid_pair] is idempotent, no call
    of [process_file] changes a cached pair, and at the end of a run all
    manifest rows of one original accession carry the same pseudonym, study
    UID and series UID, which are also the values of the object written at
    the row's output path; and any two written objects of one pseudonym
    hold the same study UID and series UID. *)
Theorem C5_uid_pair_per_pseudonym env files readings s :
  main env files readings = Some s →
  (∀ deid_acc s0 s1,
      ensure_uid_pair deid_acc s0 = Returned tt s1 →
      is_Some (accession_uid_map s1 !! deid_acc)
      ∧ ensure_uid_pair deid_acc s1 = Returned tt s1)
  ∧ (∀ f s1 s2 deid_acc pair,
        state_of (process_file env f s1) = Some s2 →
        accession_uid_map s1 !! deid_acc = Some pair →
        accession_uid_map s2 !! deid_acc = Some pair)
  ∧ (∀ r1 r2,
        r1 ∈ output_manifest s → r2 ∈ output_manifest s →
        m_original_accession r1 = m_original_accession r2 →
        m_deid_accession r1 = m_deid_accession r2
        ∧ m_study_uid r1 = m_study_uid r2
        ∧ m_series_uid r1 = m_series_uid r2)
  ∧ (∀ row w,
        row ∈ output_manifest s → w ∈ disk s → w.1 = m_deid_path row →
        Ds.get (tag_of AccessionNumber) (elements w.2) = Some (VText (m_deid_accession row))
        ∧ Ds.get (tag_of PatientID) (elements w.2) = Some (VText (m_deid_accession row))
        ∧ Ds.get (tag_of StudyID) (elements w.2) = Some (VText (m_deid_accession row))
        ∧ Ds.get (tag_of StudyInstanceUID) (elements w.2) = Some (m_study_uid row)
        ∧ Ds.get (tag_of SeriesInstanceUID) (elements w.2) = Some (m_series_uid row))
  ∧ (∀ w1 w2,
        w1 ∈ disk s → w2 ∈ disk s →
        Ds.get (tag_of AccessionNumber) (elements w1.2)
        = Ds.get (tag_of AccessionNumber) (elements w2.2) →
        Ds.get (tag_of StudyInstanceUID) (elements w1.2)
        = Ds.get (tag_of StudyInstanceUID) (elements w2.2)
        ∧ Ds.get (tag_of SeriesInstanceUID) (elements w1.2)
          = Ds.get (tag_of SeriesInstanceUID) (elements w2.2)).
Proof.
  intros Hrun. apply run_ok in Hrun as [Hrows Hws].
  rewrite Forall_forall in Hrows. rewrite Forall_forall in Hws.
  split; [|split; [|split; [|split]]].
  - intros deid_acc s0 s1 H.
    apply ensure_uid_pair_returned in H as (_ & _ & Hsome).
    split; [done|]. by apply ensure_uid_pair_cached.
  - intros f s1 s2 deid_acc pair Hstep Hp.
    apply process_file_step in Hstep as [[Ha _] _]. by eapply lookup_weaken.
  - intros r1 r2 H1 H2 Heq.
    destruct (Hrows _ H1) as (p1 & ? & ? & ? & A1 & B1 & C1 & D1 & _).
    destruct (Hrows _ H2) as (p2 & ? & ? & ? & A2 & B2 & C2 & D2 & _).
    assert (m_deid_accession r1 = m_deid_accession r2) as Hd by congruence.
    assert (p1 = p2) as -> by congruence.
    split; [done|]. split; congruence.
  - intros row w Hrow Hw Hpath.
    destruct (Hrows _ Hrow) as (p1 & ? & ? & t1 & A1 & B1 & C1 & D1 & _ & _ & _ & _ & _ & P1 & _).
    destruct (Hws _ Hw) as (d2 & p2 & t2 & u2 & P2 & B2 & E2 & F2 & G2 & H2 & I2 & _).
    rewrite P1, P2 in Hpath. unfold output_path_of in Hpath.
    injection Hpath as Hd _. subst d2.
    assert (p1 = p2) as -> by congruence.
    rewrite C1, D1. done.
  - intros w1 w2 Hw1 Hw2 Hacc.
    destruct (Hws _ Hw1) as (d1 & p1 & _ & _ & _ & B1 & E1 & _ & _ & H1 & I1 & _).
    destruct (Hws _ Hw2) as (d2 & p2 & _ & _ & _ & B2 & E2 & _ & _ & H2 & I2 & _).
    rewrite E1, E2 in Hacc. injection Hacc as ->.
    assert (p1 = p2) as -> by congruence.
    by rewrite H1, H2, I1, I2.
Qed.



(** C2, as the code has it: every top-level element whose normalized name
    is in the keep-list, other than the SOP instance UID (which the identity
    step overwrites), the pixel data (which the redactor replaces) and
    BitsStored, HighBit and PixelRepresentation (which the redactor
    assigns), has in the written object the value it had in the dataset
    read; and the sweep alone changes no top-level element named in the
    keep-list. *)
Theorem C2_keep_list_preserved env f s s' :
  state_of (process_file env f s) = Some s' →
  (∃ ws, disk s' = disk s ++ ws
         ∧ ∀ w, w ∈ ws →
             ∃ ds, f_dcmread f = Some ds
                   ∧ ∀ t, Text.mem (normalize_tag (elem_name (codec env) t))
                                   keep_normalized = true →
                          t ∉ tag_of SOPInstanceUID :: reasserted →
                          Ds.get t (elements w.2) = Ds.get t ds)
  ∧ (∀ ds t, Text.mem (normalize_tag (elem_name (codec env) t)) keep_normalized = true →
             Ds.get t (sweep (codec env) ds) = Ds.get t ds).
Proof.
  intros Hstep. split.
  - apply process_file_step in Hstep as [_ [[_ Hd]|Hred]].
    { exists []. rewrite app_nil_r. split; [done|]. intros w Hw. by apply elem_of_nil in Hw. }
    destruct Hred as (ds & accession & deid_acc & pair & toks & sop_uid & obj' & saved
                      & Hds & _ & _ & _ & _ & Hr & Hd & _).
    eexists. split; [exact Hd|].
    unfold written. destruct saved; [|intros w Hw; by apply elem_of_nil in Hw].
    intros w Hw. apply list_elem_of_singleton in Hw as ->. cbn [snd].
    exists ds. split; [done|]. intros t Hk Ht.
    apply not_elem_of_cons in Ht as [Hsop Hre].
    rewrite (redact_get _ _ _ _ _ _ _ Hr Hre).
    by apply scrubbed_kept.
  - intros ds t Hk. apply sweep_spared. unfold spared. by rewrite Hk.
Qed.

(** The sample run over two files of one accession: both rows carry the
    same pseudonym, study UID and series UID. *)
Lemma C5_sample :
  main Sample.env Sample.two_files Sample.steady = Some Sample.after_two_files
  ∧ ∃ r1 r2,
      output_manifest Sample.after_two_files = [r1; r2]
      ∧ m_original_accession r1 = m_original_accession r2
      ∧ m_deid_accession r1 = m_deid_accession r2
      ∧ m_study_uid r1 = m_study_uid r2
      ∧ m_series_uid r1 = m_series_uid r2.
Proof.
  split; [vm_compute; reflexivity|].
  eexists _, _. split; [reflexivity|]. split; [reflexivity|].
  destruct (C5_uid_pair_per_pseudonym Sample.env Sample.two_files Sample.steady
              Sample.after_two_files) as (_ & _ & H & _); [vm_compute; reflexivity|].
  apply H; [apply list_elem_of_here|apply list_elem_of_further, list_elem_of_here|reflexivity].
Defined.



(** The sample file: the written object has the columns and the SOP class
    UID of the dataset read. *)
Lemma C2_sample :
  state_of (process_file Sample.env Sample.first_file (initial_state Sample.steady))
    = Some Sample.after_first_file
  ∧ ∃ ws, disk Sample.after_first_file = disk (initial_state Sample.steady) ++ ws
          ∧ length ws = 1
          ∧ ∀ w, w ∈ ws →
              Ds.get (0x0028, 0x0011)%N (elements w.2) = Some (VInt 3)
              ∧ Ds.get (tag_of SOPClassUID) (elements w.2)
                = Some (VText "1.2.840.10008.5.1.4.1.1.6.1").
Proof.
  split; [vm_compute; reflexivity|].
  destruct (C2_keep_list_preserved Sample.env Sample.first_file
              (initial_state Sample.steady) Sample.after_first_file)
    as ((ws & Hd & H) & _); [vm_compute; reflexivity|].
  exists ws. split; [exact Hd|]. split.
  - apply (f_equal length) in Hd. rewrite length_app in Hd.
    change (length (disk Sample.after_first_file)) with 1 in Hd.
    change (length (disk (initial_state Sample.steady))) with 0 in Hd.
    simpl in Hd. by symmetry.
  - intros w Hw. destruct (H w Hw) as (ds & Hds & Hk).
    injection Hds as <-.
    split; (rewrite Hk; [reflexivity|reflexivity|]);
      intros Hin; repeat (apply elem_of_cons in Hin as [Hin|Hin]; [by vm_compute in Hin|]);
      by apply elem_of_nil in Hin.
Defined.

(** The elements named in the keep-list that do change, at the sample
    file: the SOP instance UID, the three pixel attributes and the pixel
    data at the top level, and a code value nested in a sequence that the
    sweep empties. *)
Lemma C2_keep_list_element_altered :
  state_of (process_file Sample.env Sample.first_file (initial_state Sample.steady))
    = Some Sample.after_first_file
  ∧ forallb (fun t => Text.mem (normalize_tag (elem_name Sample.pydicom t)) keep_normalized)
      [ tag_of SOPInstanceUID; tag_of BitsStored; tag_of HighBit;
        tag_of PixelRepresentation; tag_of PixelData; (0x0008, 0x0100)%N ] = true
  ∧ map (fun t => Ds.get t (Sample.dataset "A123"))
      [ tag_of SOPInstanceUID; tag_of BitsStored; tag_of HighBit;
        tag_of PixelRepresentation; tag_of PixelData; (0x0054, 0x0220)%N ]
    = [ Some (VText "1.2.3.4"); Some (VInt 12); Some (VInt 11); Some (VInt 1);
        Some (VBytes [ Byte.x64; Byte.x00; Byte.xc8; Byte.x00; Byte.x2c; Byte.x01;
                       Byte.x90; Byte.x01; Byte.xf4; Byte.x01; Byte.xfa; Byte.xff ]);
        Some (VSeq [[Elem (0x0008, 0x0100)%N (VText "R-10206")]]) ]
  ∧ map (fun w => map (fun t => Ds.get t (elements w.2))
                    [ tag_of SOPInstanceUID; tag_of BitsStored; tag_of HighBit;
                      tag_of PixelRepresentation; tag_of PixelData; (0x0054, 0x0220)%N ])
      (disk Sample.after_first_file)
    = [ [ Some (VText "1.3.6.1.4.1.11129.5.1.202437534"); Some (VInt 16); Some (VInt 15);
          Some (VInt 0);
          Some (VBytes [ Byte.x00; Byte.x00; Byte.x00; Byte.x00; Byte.x2c; Byte.x01;
                         Byte.x90; Byte.x01; Byte.xf4; Byte.x01; Byte.xfa; Byte.xff ]);
          Some (VSeq []) ] ].
Proof. repeat split; vm_compute; reflexivity. Qed.

(** C1, at a file whose output cannot be written: the redactor reports the
    failure and returns, and [process_file] appends the row all the same.
    The run ends with one row and no file, where the same file with a
    working [dcmwrite] gives one row and one file. *)
Theorem C1_row_without_written_file :
  option_map (fun s => (length (output_manifest s), length (disk s)))
    (main Sample.env [Sample.unwritable] Sample.steady)
  = Some (1, 0)
  ∧ option_map (fun s => (length (output_manifest s), length (disk s)))
      (main Sample.env [Sample.first_file] Sample.steady)
    = Some (1, 1)
  ∧ f_dcmwrite_ok Sample.unwritable = false.
Proof. repeat split; vm_compute; reflexivity. Qed.

(** C3, at two files processed one hour apart to the microsecond: the two
    rows carry the same SOP instance UID. *)
Theorem C3_sop_instance_uid_repeats :
  option_map (fun s => map (fun row => (m_deid_accession row, m_sop_instance_uid row))
                           (output_manifest s))
    (main Sample.env Sample.two_accessions Sample.hour_apart)
  = Some [ ("P001", "1.3.6.1.4.1.11129.5.1.202437534");
           ("P002", "1.3.6.1.4.1.11129.5.1.202437534") ].
Proof. vm_compute. reflexivity. Qed.

(** ** The redaction mask *)

Lemma at2_rectangle mask pt1 pt2 color x y :
  at2 (rectangle mask pt1 pt2 color) x y =
  (fun v => if in_box pt1 pt2 (Z.of_nat x) (Z.of_nat y) then color else v)
    <$> at2 mask x y.
Proof.
  unfold at2, rectangle. rewrite list_lookup_imap.
  destruct (mask !! y) as [row|]; simpl; [|done].
  by rewrite list_lookup_imap.
Qed.

Lemma at2_ones rows cols x y :
  x < cols → y < rows → at2 (ones_255 rows cols) x y = Some 255%Z.
Proof.
  intros Hx Hy. unfold at2, ones_255.
  rewrite lookup_replicate_2 by done. simpl. by rewrite lookup_replicate_2.
Qed.

(** The loop body draws exactly for the detections the design document
    calls masked. *)
Lemma mask_step_redacts mode rows cols mask d :
  mask_step mode rows cols mask d =
  if redacts mode d
  then rectangle mask (corners rows cols d).1 (corners rows cols d).2 0
  else mask.
Proof.
  unfold mask_step, redacts, benign.
  destruct (PrimFloat.ltb threshold (prob d)); [|done].
  destruct (String.eqb mode "Full"); cbn [negb andb orb].
  - by destruct (corners rows cols d).
  - destruct (existsb _ keywords); cbn [negb andb orb]; [done|].
    destruct (Nat.eqb _ 1 && Text.isalpha _); cbn [negb]; [done|].
    by destruct (corners rows cols d).
Qed.

Lemma at2_fold_mask mode rows cols results mask x y v :
  at2 mask x y = Some v →
  at2 (fold_left (mask_step mode rows cols) results mask) x y =
  Some (if covered mode rows cols results x y then 0%Z else v).
Proof.
  revert mask v. induction results as [|d results IH]; intros mask v Hv; [done|].
  cbn [fold_left]. unfold covered. cbn [existsb]. fold (covered mode rows cols results x y).
  rewrite mask_step_redacts.
  destruct (redacts mode d); cbn [andb orb].
  - erewrite IH; [|by rewrite at2_rectangle, Hv].
    destruct (in_box _ _ _ _); cbn [orb]; [|done].
    by destruct (covered _ _ _ _ _ _).
  - by apply IH.
Qed.

(** The mask entry of a pixel of the frame: 0 where a masked detection
    covers it, 255 elsewhere. *)
Lemma at2_build_mask mode rows cols results x y :
  x < cols → y < rows →
  at2 (build_mask mode rows cols results) x y =
  Some (if covered mode rows cols results x y then 0%Z else 255%Z).
Proof.
  intros Hx Hy. unfold build_mask. apply at2_fold_mask. by apply at2_ones.
Qed.





(** ** Applying the mask *)

























(** * Further properties of the code *)

(** ** Tag names *)

Lemma lower_char_lower_char c : Text.lower_char (Text.lower_char c) = Text.lower_char c.
Proof. destruct c as [[] [] [] [] [] [] [] []]; reflexivity. Qed.

Lemma lower_char_space c :
  (Text.code (Text.lower_char c) =? 32)%N = (Text.code c =? 32)%N.
Proof. destruct c as [[] [] [] [] [] [] [] []]; reflexivity. Qed.

Lemma lower_lower s : Text.lower (Text.lower s) = Text.lower s.
Proof. induction s as [|c s IH]; simpl; [done|]. by rewrite lower_char_lower_char, IH. Qed.

Lemma remove_spaces_lower s :
  Text.remove_spaces (Text.lower s) = Text.lower (Text.remove_spaces s).
Proof.
  induction s as [|c s IH]; simpl; [done|].
  rewrite lower_char_space. destruct (Text.code c =? 32)%N; simpl; by rewrite IH.
Qed.

Lemma remove_spaces_remove_spaces s :
  Text.remove_spaces (Text.remove_spaces s) = Text.remove_spaces s.
Proof.
  induction s as [|c s IH]; simpl; [done|].
  destruct (Text.code c =? 32)%N eqn:Hc; simpl; [done|]. by rewrite Hc, IH.
Qed.

Lemma remove_spaces_app a b :
  Text.remove_spaces (a +:+ b) = Text.remove_spaces a +:+ Text.remove_spaces b.
Proof.
  induction a as [|c a IH]; simpl; [done|].
  destruct (Text.code c =? 32)%N; simpl; by rewrite IH.
Qed.

(** X1: [normalize_tag] gives one key to all the spellings of a name: applying
    it again changes nothing, and neither the letter case nor the spaces of
    the name, wherever they stand, enter the key. *)
Theorem normalize_tag_canonical s :
  normalize_tag (normalize_tag s) = normalize_tag s
  ∧ normalize_tag (Text.lower s) = normalize_tag s
  ∧ normalize_tag (Text.remove_spaces s) = normalize_tag s
  ∧ ∀ a b, normalize_tag (a +:+ " " +:+ b) = normalize_tag (a +:+ b).
Proof.
  unfold normalize_tag. repeat split.
  - by rewrite remove_spaces_lower, lower_lower, remove_spaces_remove_spaces.
  - by rewrite remove_spaces_lower, lower_lower.
  - by rewrite remove_spaces_remove_spaces.
  - intros a b. by rewrite !remove_spaces_app.
Qed.

(** ** The sweep, element by element *)

Section SweepFate.

Context (c : Codec).

Lemma cleared_cleared v : cleared (cleared v) = cleared v.
Proof. by destruct v. Qed.

Lemma wiped_wiped t o : wiped c t (wiped c t o) = wiped c t o.
Proof.
  unfold wiped. destruct (is_private t || clear_raises c t); [done|].
  destruct o; simpl; [|done]. by rewrite cleared_cleared.
Qed.

Lemma wiped_None t : wiped c t None = None.
Proof. unfold wiped. by destruct (is_private t || clear_raises c t). Qed.

Lemma sweep_elem_same ds e :
  spared c (e_tag e) = false →
  Ds.get (e_tag e) (sweep_elem c ds e) = wiped c (e_tag e) (Ds.get (e_tag e) ds).
Proof.
  unfold spared, sweep_elem, wiped. intros H.
  apply orb_false_iff in H as [-> ->].
  destruct (is_private (e_tag e)); cbn [orb].
  - destruct (Ds.del _ ds) as [ds'|] eqn:Hd.
    + by rewrite (del_same _ _ _ Hd).
    + by rewrite (del_none _ _ Hd).
  - unfold Ds.clear, Ds.del, Ds.has.
    destruct (Ds.get (e_tag e) ds) as [v|] eqn:Hg.
    + destruct (clear_raises c (e_tag e)).
      * rewrite DsFacts.get_remove. by rewrite decide_True.
      * rewrite DsFacts.get_update, decide_True, Hg; done.
    + rewrite Hg. by destruct (clear_raises c (e_tag e)).
Qed.

Lemma fold_sweep_get l ds t :
  spared c t = false →
  Ds.get t (fold_left (sweep_elem c) l ds) =
  if existsb (fun e => bool_decide (e_tag e = t)) l
  then wiped c t (Ds.get t ds) else Ds.get t ds.
Proof.
  intros Hs. revert ds. induction l as [|e l IH]; intros ds; [done|].
  cbn [fold_left existsb]. rewrite IH.
  destruct (decide (e_tag e = t)) as [<-|Hne].
  - rewrite bool_decide_true by done. cbn [orb].
    rewrite sweep_elem_same by done.
    destruct (existsb _ l); [apply wiped_wiped|done].
  - rewrite bool_decide_false by done. cbn [orb].
    by rewrite sweep_elem_other.
Qed.

Lemma sweep_get ds t :
  spared c t = false → Ds.get t (sweep c ds) = wiped c t (Ds.get t ds).
Proof.
  intros Hs. unfold sweep. rewrite fold_sweep_get by done.
  destruct (existsb _ _) eqn:Hex; [done|].
  destruct (Ds.get t ds) as [v|] eqn:Hg; [|by rewrite wiped_None].
  apply get_elem_of, elem_of_iterall in Hg.
  assert (existsb (fun e => bool_decide (e_tag e = t)) (iterall ds) = true) as Hex'.
  { apply existsb_exists. exists (Elem t v). split; [by apply list_elem_of_In|].
    by apply bool_decide_eq_true. }
  congruence.
Qed.

End SweepFate.

(** X2: The fate of every top-level element in the sweep, by its tag: an
    element whose normalized name is in the keep-list or the replace set
    stays as it is; any other element is removed when its tag is private or
    the codec rejects the empty value, and is kept with an empty value
    otherwise.  The sweep adds no element. *)
Theorem sweep_top_level_fate c ds t :
  Ds.get t (sweep c ds) =
  if spared c t then Ds.get t ds
  else if is_private t || clear_raises c t then None
  else cleared <$> Ds.get t ds.
Proof.
  destruct (spared c t) eqn:Hs.
  - by apply sweep_spared.
  - by apply sweep_get.
Qed.

(** X3: A second sweep finds nothing left to do at the top level: every tag
    reads the same after two sweeps as after one. *)
Theorem sweep_twice c ds t :
  Ds.get t (sweep c (sweep c ds)) = Ds.get t (sweep c ds).
Proof.
  destruct (spared c t) eqn:Hs.
  - by rewrite !sweep_spared.
  - rewrite !sweep_get by done. apply wiped_wiped.
Qed.

(** ** The generator loop *)

(** X4: [generate] returns exactly when the clock comes to a reading that
    formats to something other than the identifier returned last: it
    returns the first such reading's identifier, remembers it, and has
    consumed the readings before it, each of which formatted to the
    identifier returned last. *)
Theorem generate_first_new_reading g c uid g' c' :
  generate g c = Some (uid, g', c') ↔
  ∃ n skipped,
    c = skipped ++ n :: c'
    ∧ Forall (fun m => Some (format_uid (org_root g) m) = current_uid g) skipped
    ∧ uid = format_uid (org_root g) n
    ∧ Some uid ≠ current_uid g
    ∧ g' = {| org_root := org_root g; current_uid := Some uid |}.
Proof.
  split.
  - revert uid g' c'. induction c as [|n c IH]; intros uid g' c'; simpl; [done|].
    case_decide as Hd.
    + intros H. destruct (IH _ _ _ H) as (m & sk & -> & H1 & H2 & H3 & H4).
      exists m, (n :: sk). repeat split; try done. by constructor.
    + intros [= <- <- <-]. exists n, []. by repeat split.
  - intros (n & sk & -> & Hsk & -> & Hne & ->).
    induction Hsk as [|m sk Hm _ IH]; simpl.
    + by rewrite decide_False.
    + by rewrite decide_True.
Qed.

(** ** Files that are passed over *)

Lemma process_file_unqualified env f s :
  qualifies env f = false → process_file env f s = Returned tt s.
Proof.
  unfold qualifies, process_file.
  destruct (f_is_dicom f); cbn [negb andb]; [|done].
  destruct (f_dcmread f) as [ds|]; [|done].
  destruct (accession_of ds) as [accession|]; [|done].
  destruct (accession_map env !! accession) as [deid_acc|] eqn:Hd; [|done].
  rewrite bool_decide_true by eauto. cbn [andb].
  by intros ->.
Qed.

Lemma process_file_qualified env f s :
  qualifies env f = true →
  ∃ ds accession deid_acc,
    f_dcmread f = Some ds ∧ accession_of ds = Some accession
    ∧ accession_map env !! accession = Some deid_acc
    ∧ process_file env f s = process_decoded env f ds accession deid_acc s.
Proof.
  unfold qualifies, process_file.
  destruct (f_is_dicom f); cbn [negb andb]; [|done].
  destruct (f_dcmread f) as [ds|]; [|done].
  destruct (accession_of ds) as [accession|] eqn:Hacc; [|done].
  destruct (accession_map env !! accession) as [deid_acc|] eqn:Hd.
  - rewrite bool_decide_true by eauto. cbn [andb]. intros ->.
    exists ds, accession, deid_acc. repeat split; done.
  - rewrite bool_decide_false by (by intros [? ?]). done.
Qed.

(** X5: A file that is not DICOM, that [dcmread] cannot read, whose stripped
    accession number the roster does not list, or whose pixel data is
    missing, empty or does not decode, is passed over without a trace: no
    row, no written file, no cache entry, and no reading of the clock. *)
Theorem process_file_skips env f s :
  f_is_dicom f = false
  ∨ f_dcmread f = None
  ∨ (∃ ds, f_dcmread f = Some ds
           ∧ ∀ accession, accession_of ds = Some accession →
                          accession_map env !! accession = None)
  ∨ (∃ ds, f_dcmread f = Some ds
           ∧ (Ds.get (tag_of PixelData) ds = None
              ∨ (∃ v, Ds.get (tag_of PixelData) ds = Some v ∧ truthy v = false)
              ∨ f_pixel_array f = None)) →
  process_file env f s = Returned tt s.
Proof.
  intros H. apply process_file_unqualified. unfold qualifies.
  destruct H as [Hf|[Hf|[(ds & Hf & Hacc)|(ds & Hf & Hpx)]]]; rewrite Hf.
  - done.
  - apply andb_false_r.
  - destruct (f_is_dicom f); [|done]. cbn [andb].
    destruct (accession_of ds) as [accession|]; [|done].
    rewrite (Hacc accession eq_refl).
    rewrite bool_decide_false by (by intros [? ?]). done.
  - destruct (f_is_dicom f); [|done]. cbn [andb].
    destruct (accession_of ds) as [accession|]; [|done].
    replace (decoded ds (f_pixel_array f)) with false; [apply andb_false_r|].
    unfold decoded.
    destruct Hpx as [Hg|[(v & Hg & Hv)|Hg]]; rewrite Hg; [done| |].
    + by destruct (f_pixel_array f).
    + by destruct (Ds.get _ ds).
Qed.

(** A DICOM file without pixel data and a file whose accession number the
    roster does not list, at a state that holds a row already. *)
Lemma process_file_skips_witness :
  let no_pixels :=
    {| f_dirs := ["A123"]; f_name := "report.dcm"; f_is_dicom := true;
       f_dcmread := Some [Elem (tag_of AccessionNumber) (VText "A123")];
       f_pixel_array := None; f_makedirs_ok := true; f_dcmwrite_ok := true |} in
  process_file Sample.env no_pixels Sample.after_first_file
    = Returned tt Sample.after_first_file
  ∧ process_file Sample.env (Sample.file "Z999" "z.dcm" true) Sample.after_first_file
    = Returned tt Sample.after_first_file.
Proof.
  split.
  - apply process_file_skips. right. right. right. eexists. split; [reflexivity|].
    left. reflexivity.
  - apply process_file_skips. right. right. left. eexists. split; [reflexivity|].
    intros accession [= <-]. reflexivity.
Defined.

(** ** The manifest follows the walk *)

Lemma process_file_rows env f s s' :
  state_of (process_file env f s) = Some s' →
  output_manifest s' = output_manifest s
  ∨ ∃ row, output_manifest s' = output_manifest s ++ [row] ∧ row_of env f row.
Proof.
  intros H. destruct (qualifies env f) eqn:Hq.
  - apply process_file_step in H as [_ [[Hm _]|Hred]]; [by left|].
    destruct Hred as (ds & accession & deid_acc & pair & toks & sop_uid & obj' & saved
                      & Hds & Hacc & _ & _ & _ & _ & _ & Hm).
    unfold recorded in Hm.
    destruct (manifest_entry _ _ _ _ _ _) as [row|] eqn:Hrow.
    + right. exists row. split; [done|].
      apply manifest_entry_some in Hrow as (R1 & _ & R3 & _).
      split; [done|]. split; [done|]. exists ds. by rewrite R3.
    + left. by rewrite app_nil_r in Hm.
  - rewrite process_file_unqualified in H by done. injection H as <-. by left.
Qed.

Lemma main_loop_rows env files s s' :
  main_loop env files s = Some s' →
  ∃ fs rows, sublist fs files
             ∧ output_manifest s' = output_manifest s ++ rows
             ∧ Forall2 (row_of env) fs rows.
Proof.
  revert s. induction files as [|f files IH]; intros s; simpl.
  - intros [= <-]. exists [], []. rewrite app_nil_r. repeat split; constructor.
  - destruct (process_file env f s) as [u s1|s1|] eqn:Hp; [| |done];
      intros (fs & rows & Hsub & Hm & Hrows)%IH;
      (assert (state_of (process_file env f s) = Some s1) as Hst by (by rewrite Hp));
      apply process_file_rows in Hst as [Hsame|(row & Hone & Hrow)].
    + exists fs, rows. rewrite <- Hsame. repeat split; try done. by apply sublist_cons.
    + exists (f :: fs), (row :: rows). rewrite Hm, Hone, <- app_assoc.
      repeat split; try done; [by apply sublist_skip|by constructor].
    + exists fs, rows. rewrite <- Hsame. repeat split; try done. by apply sublist_cons.
    + exists (f :: fs), (row :: rows). rewrite Hm, Hone, <- app_assoc.
      repeat split; try done; [by apply sublist_skip|by constructor].
Qed.

(** X6: The manifest follows the walk: its rows are, in the order of the walk,
    the rows of some of the files walked, at most one row per file, each
    for a file that got past the checks of [process_file] and with that
    file's path and stripped accession number.  So the manifest never has
    more rows than files were walked. *)
Theorem manifest_follows_walk env files readings s :
  main env files readings = Some s →
  (∃ fs, sublist fs files ∧ Forall2 (row_of env) fs (output_manifest s))
  ∧ (length (output_manifest s) <= length files)%nat.
Proof.
  unfold main. intros (fs & rows & Hsub & Hm & Hrows)%main_loop_rows.
  simpl in Hm. subst rows. split; [by exists fs|].
  rewrite <- (Forall2_length _ _ _ Hrows). by apply sublist_length.
Qed.

(** The sample run over the two files of one accession: two rows, for the
    two files in their order. *)
Lemma manifest_follows_walk_witness :
  main Sample.env Sample.two_files Sample.steady = Some Sample.after_two_files
  ∧ (∃ fs, sublist fs Sample.two_files
           ∧ Forall2 (row_of Sample.env) fs (output_manifest Sample.after_two_files))
  ∧ (length (output_manifest Sample.after_two_files) <= 2)%nat.
Proof.
  split; [vm_compute; reflexivity|].
  apply (manifest_follows_walk Sample.env Sample.two_files Sample.steady).
  vm_compute; reflexivity.
Defined.

Ltac in_list := repeat first [apply list_elem_of_here | apply list_elem_of_further].

(** ** What a run writes and records *)

(** Whatever holds of every object the redactor returns as saved holds of
    every written file, and whatever holds of every row built from an
    object the redactor returns holds of every manifest row. *)
Lemma run_outputs env files readings s
    (P : Path → DicomObject → Prop) (Q : ManifestEntry → Prop) :
  (∀ deid_acc pair toks sop_uid ds pa ok obj',
      redact (redactor env) (scrubbed (codec env) deid_acc pair sop_uid ds) pa ok
        = RedactReturned obj' true →
      P (output_path_of env deid_acc toks sop_uid) obj') →
  (∀ deid_acc pair sop_uid ds pa ok obj' saved full_path output_path accession row,
      redact (redactor env) (scrubbed (codec env) deid_acc pair sop_uid ds) pa ok
        = RedactReturned obj' saved →
      manifest_entry full_path output_path accession deid_acc sop_uid (elements obj')
        = Some row →
      Q row) →
  main env files readings = Some s →
  Forall (fun w => P w.1 w.2) (disk s) ∧ Forall Q (output_manifest s).
Proof.
  intros HP HQ. unfold main.
  apply (main_loop_invariant env
           (fun s => Forall (fun w => P w.1 w.2) (disk s) ∧ Forall Q (output_manifest s))).
  - intros f s1 s2 _ [Hws Hrows] Hstep.
    apply process_file_step in Hstep as [_ [[Hm Hd]|Hred]]; [by rewrite Hm, Hd|].
    destruct Hred as (ds & accession & deid_acc & pair & toks & sop_uid & obj' & saved
                      & _ & _ & _ & _ & _ & Hr & Hd & Hm).
    rewrite Hd, Hm. split; apply Forall_app; split; try done.
    + unfold written. destruct saved; constructor; [|constructor].
      cbn [fst snd]. by eapply HP.
    + unfold recorded. destruct (manifest_entry _ _ _ _ _ _) as [row|] eqn:Hrow;
        constructor; [|constructor]. by eapply HQ.
  - split; constructor.
Qed.

Lemma spared_reasserted c t : t ∈ reasserted → spared c t = true.
Proof.
  unfold reasserted, spared. intros H.
  repeat (apply elem_of_cons in H as [->|H]; [rewrite keyword_name; by vm_compute|]).
  by apply elem_of_nil in H.
Qed.

Lemma patient_name_wiped c : spared c (tag_of PatientName) = false.
Proof. unfold spared. rewrite keyword_name. by vm_compute. Qed.

(** What the redactor returns holds, at a tag the sweep does not pass
    over, what the sweep left there. *)
Lemma redact_scrubbed_get r c deid_acc pair sop_uid ds pa ok obj' saved t :
  redact r (scrubbed c deid_acc pair sop_uid ds) pa ok = RedactReturned obj' saved →
  spared c t = false →
  Ds.get t (elements obj')
  = wiped c t (Ds.get t (replace_identity deid_acc pair sop_uid ds)).
Proof.
  intros Hr Hs.
  rewrite (redact_get _ _ _ _ _ _ t Hr).
  - cbn [elements scrubbed]. by apply sweep_get.
  - intros Hin. apply (spared_reasserted c) in Hin. congruence.
Qed.

Lemma emptied_wiped c t o ds :
  Ds.get t ds = wiped c t o → emptied t ds.
Proof.
  unfold emptied, wiped. intros ->.
  destruct (is_private t || clear_raises c t); [done|].
  destruct o; simpl; [apply is_empty_cleared|done].
Qed.

(** X7: In every file a run writes, every top-level element whose normalized
    name is in neither the keep-list nor the replace set is absent or has an
    empty value, and no such element with a private tag is present. *)
Theorem written_files_scrubbed env files readings s w t :
  main env files readings = Some s →
  w ∈ disk s →
  spared (codec env) t = false →
  emptied t (elements w.2)
  ∧ (is_private t = true → Ds.get t (elements w.2) = None).
Proof.
  intros Hrun Hw Hs.
  apply (run_outputs env files readings s
           (fun _ obj' => ∀ t, spared (codec env) t = false →
              emptied t (elements obj')
              ∧ (is_private t = true → Ds.get t (elements obj') = None))
           (fun _ => True)) in Hrun as [Hws _]; [| |done].
  - rewrite Forall_forall in Hws. by apply Hws.
  - intros deid_acc pair toks sop_uid ds pa ok obj' Hr t' Hs'.
    pose proof (redact_scrubbed_get _ _ _ _ _ _ _ _ _ _ t' Hr Hs') as Hg.
    split; [by eapply emptied_wiped|].
    intros Hp. rewrite Hg. unfold wiped. by rewrite Hp.
Qed.

(** The file written for the sample: the private element is gone, the
    birth date and the patient's name are empty. *)
Lemma written_files_scrubbed_witness :
  main Sample.env [Sample.first_file] Sample.steady = Some Sample.after_first_file
  ∧ ∃ w, disk Sample.after_first_file = [w]
         ∧ Ds.get (0x0009, 0x0010)%N (elements w.2) = None
         ∧ emptied (0x0010, 0x0030)%N (elements w.2)
         ∧ emptied (tag_of PatientName) (elements w.2).
Proof.
  split; [vm_compute; reflexivity|].
  eexists. split; [reflexivity|].
  split; [|split].
  - eapply (written_files_scrubbed Sample.env [Sample.first_file] Sample.steady);
      [vm_compute; reflexivity|apply list_elem_of_here|vm_compute; reflexivity|reflexivity].
  - eapply (written_files_scrubbed Sample.env [Sample.first_file] Sample.steady);
      [vm_compute; reflexivity|apply list_elem_of_here|vm_compute; reflexivity].
  - eapply (written_files_scrubbed Sample.env [Sample.first_file] Sample.steady);
      [vm_compute; reflexivity|apply list_elem_of_here|vm_compute; reflexivity].
Defined.

(** X8: The columns of a manifest row that are read back from the dataset:
    AccessionNumber, PatientID and StudyID hold the pseudonym the roster
    gives for the original accession number, PatientIdentityRemoved holds
    YES, and PatientName is empty: the sweep clears the name the identity
    step had set to the pseudonym, because the dictionary name of the
    element, Patient's Name, is in neither list. *)
Theorem manifest_row_columns env files readings s row :
  main env files readings = Some s →
  row ∈ output_manifest s →
  accession_map env !! m_original_accession row = Some (m_deid_accession row)
  ∧ m_AccessionNumber row = VText (m_deid_accession row)
  ∧ m_PatientID row = VText (m_deid_accession row)
  ∧ m_StudyID row = VText (m_deid_accession row)
  ∧ m_PatientIdentityRemoved row = VText "YES"
  ∧ m_PatientName row = VText "".
Proof.
  intros Hrun Hrow.
  pose proof (run_ok _ _ _ _ Hrun) as [Hrows _].
  rewrite Forall_forall in Hrows.
  destruct (Hrows _ Hrow) as (p & dirs & name & toks & H1 & _ & _ & _ & H5 & H6 & H7 & H8 & _).
  repeat split; try done.
  apply (run_outputs env files readings s (fun _ _ => True)
           (fun row => m_PatientName row = VText "")) in Hrun as [_ HQ]; [|done|].
  - rewrite Forall_forall in HQ. by apply HQ.
  - intros deid_acc pair sop_uid ds pa ok obj' saved full_path output_path accession row'
      Hr Hentry.
    apply manifest_entry_some in Hentry as (_ & _ & _ & _ & _ & _ & _ & _ & _ & Hname & _).
    rewrite (redact_scrubbed_get _ _ _ _ _ _ _ _ _ _ _ Hr (patient_name_wiped _)) in Hname.
    rewrite replace_identity_get in Hname.
    repeat (rewrite decide_False in Hname by (by vm_compute)).
    rewrite decide_True in Hname by done.
    unfold wiped in Hname.
    destruct (is_private _ || clear_raises _ _); [done|].
    simpl in Hname. by injection Hname as <-.
Qed.

(** The two rows of the sample run. *)
Lemma manifest_row_columns_witness :
  main Sample.env Sample.two_files Sample.steady = Some Sample.after_two_files
  ∧ length (output_manifest Sample.after_two_files) = 2
  ∧ ∀ row, row ∈ output_manifest Sample.after_two_files →
      m_original_accession row = "A123"
      ∧ m_AccessionNumber row = VText "P001"
      ∧ m_PatientID row = VText "P001"
      ∧ m_StudyID row = VText "P001"
      ∧ m_PatientIdentityRemoved row = VText "YES"
      ∧ m_PatientName row = VText "".
Proof.
  split; [vm_compute; reflexivity|]. split; [reflexivity|].
  intros row Hrow.
  destruct (manifest_row_columns Sample.env Sample.two_files Sample.steady
              Sample.after_two_files row) as (H1 & H2 & H3 & H4 & H5 & H6);
    [vm_compute; reflexivity|exact Hrow|].
  assert (m_original_accession row = "A123" ∧ m_deid_accession row = "P001") as [Ha Hd].
  { repeat (apply elem_of_cons in Hrow as [->|Hrow]; [by split|]).
    by apply elem_of_nil in Hrow. }
  rewrite Hd in *. by repeat split.
Defined.

(** X9: Where clearing the patient's name does not raise, every file a run
    writes has its row: the manifest holds a row with the path of the file
    and the SOP instance UID the file carries. *)
Theorem written_file_has_row env files readings s w :
  clear_raises (codec env) (tag_of PatientName) = false →
  main env files readings = Some s →
  w ∈ disk s →
  ∃ row, row ∈ output_manifest s
         ∧ m_deid_path row = w.1
         ∧ Ds.get (tag_of SOPInstanceUID) (elements w.2)
           = Some (VText (m_sop_instance_uid row)).
Proof.
  intros Hclear Hrun. revert w. revert Hrun. unfold main.
  apply (main_loop_invariant env
           (fun s => ∀ w, w ∈ disk s →
              ∃ row, row ∈ output_manifest s ∧ m_deid_path row = w.1
                     ∧ Ds.get (tag_of SOPInstanceUID) (elements w.2)
                       = Some (VText (m_sop_instance_uid row)))).
  - intros f s1 s2 _ Hinv Hstep w Hw.
    apply process_file_step in Hstep as [_ [[Hm Hd]|Hred]].
    { rewrite Hm. apply Hinv. by rewrite <- Hd. }
    destruct Hred as (ds & accession & deid_acc & pair & toks & sop_uid & obj' & saved
                      & _ & _ & _ & _ & _ & Hr & Hd & Hm).
    rewrite Hd in Hw. apply elem_of_app in Hw as [Hw|Hw].
    { destruct (Hinv w Hw) as (row & Hrow & Hrest). exists row.
      split; [|done]. rewrite Hm. apply elem_of_app. by left. }
    unfold written in Hw. destruct saved; [|by apply elem_of_nil in Hw].
    apply list_elem_of_singleton in Hw as ->. cbn [fst snd].
    assert (∀ k, k ∈ [AccessionNumber; PatientID; PatientName; StudyID;
                      PatientIdentityRemoved; StudyInstanceUID; SeriesInstanceUID;
                      SOPInstanceUID; SOPClassUID] →
                 Ds.get (tag_of k) (elements obj')
                 = Ds.get (tag_of k)
                     (elements (scrubbed (codec env) deid_acc pair sop_uid ds))) as Hid.
    { intros k Hk. by eapply redact_identity. }
    pose proof (scrubbed_identity (codec env) deid_acc pair sop_uid ds)
      as (I1 & I2 & I3 & I4 & I5 & I6 & I7).
    pose proof (redact_scrubbed_get _ _ _ _ _ _ _ _ _ _ _ Hr
                  (patient_name_wiped (codec env))) as Hname.
    rewrite replace_identity_get in Hname.
    repeat (rewrite decide_False in Hname by (by vm_compute)).
    rewrite decide_True in Hname by done.
    unfold wiped in Hname.
    replace (is_private (tag_of PatientName)) with false in Hname by reflexivity.
    rewrite Hclear in Hname. cbn [orb fmap option_fmap option_map] in Hname.
    unfold recorded, manifest_entry in Hm.
    rewrite Hname in Hm. rewrite !Hid in Hm by in_list.
    rewrite I1, I2, I3, I4, I5, I6 in Hm. cbn [mbind option_bind] in Hm.
    eexists. split; [rewrite Hm; apply elem_of_app; right; apply list_elem_of_here|].
    cbn [m_deid_path m_sop_instance_uid]. split; [done|].
    rewrite Hid by in_list. exact I7.
  - intros w Hw. by apply elem_of_nil in Hw.
Qed.

(** The two written files of the sample run. *)
Lemma written_file_has_row_witness :
  clear_raises (codec Sample.env) (tag_of PatientName) = false
  ∧ main Sample.env Sample.two_files Sample.steady = Some Sample.after_two_files
  ∧ length (disk Sample.after_two_files) = 2
  ∧ ∀ w, w ∈ disk Sample.after_two_files →
      ∃ row, row ∈ output_manifest Sample.after_two_files
             ∧ m_deid_path row = w.1
             ∧ Ds.get (tag_of SOPInstanceUID) (elements w.2)
               = Some (VText (m_sop_instance_uid row)).
Proof.
  split; [reflexivity|]. split; [vm_compute; reflexivity|]. split; [reflexivity|].
  intros w.
  apply (written_file_has_row Sample.env Sample.two_files Sample.steady);
    [reflexivity|vm_compute; reflexivity].
Defined.

(** ** The pairs of the UID cache *)

Lemma ensure_uid_pair_distinct deid s u s' :
  ensure_uid_pair deid s = Returned u s' → pairs_distinct s → pairs_distinct s'.
Proof.
  unfold ensure_uid_pair, pairs_distinct. unfold_M.
  destruct (accession_uid_map s !! deid) as [p|] eqn:Hp.
  - by intros [= <- <-].
  - destruct (gen_uid s) as [u1 s1| |] eqn:H1; [|done..].
    destruct (gen_uid s1) as [u2 s2| |] eqn:H2; [|done..].
    intros [= <- <-] Hinv.
    apply gen_uid_returned in H1 as (Ha1 & _ & _ & Hcur & _).
    apply gen_uid_returned in H2 as (Ha2 & _ & _ & _ & Hne).
    cbn [accession_uid_map set_accession_uid_map]. rewrite Ha2, Ha1.
    apply map_Forall_insert_2; [|done]. cbn [study_uid series_uid].
    rewrite Hcur in Hne. congruence.
Qed.

Lemma token_for_pairs part s tok s' :
  token_for part s = Returned tok s' → accession_uid_map s' = accession_uid_map s.
Proof.
  unfold token_for. unfold_M.
  destruct (folder_uid_map s !! part) as [p|]; [by intros [= <- <-]|].
  destruct (gen_uid s) as [u1 s1| |] eqn:H1; [|done..].
  intros [= <- <-]. by apply gen_uid_returned in H1 as (Ha1 & _).
Qed.

Lemma tokens_for_pairs parts s toks s' :
  tokens_for parts s = Returned toks s' → accession_uid_map s' = accession_uid_map s.
Proof.
  revert s toks. induction parts as [|part parts IH]; intros s toks; simpl; unfold_M.
  - by intros [= <- <-].
  - destruct (token_for part s) as [tok s1| |] eqn:H1; [|done..].
    destruct (tokens_for parts s1) as [toks' s2| |] eqn:H2; [|done..].
    intros [= <- <-]. apply IH in H2. apply token_for_pairs in H1. congruence.
Qed.

Lemma process_file_distinct env f s s' :
  state_of (process_file env f s) = Some s' → pairs_distinct s → pairs_distinct s'.
Proof.
  destruct (qualifies env f) eqn:Hq.
  2:{ rewrite process_file_unqualified by done. by intros [= <-]. }
  destruct (process_file_qualified env f s Hq) as (ds & accession & deid_acc & _ & _ & _ & ->).
  unfold process_decoded. unfold mbind at 1. unfold M_bind at 1.
  destruct (allocate_ids deid_acc (f_dirs f) s) as [[toks sop_uid] s1| |] eqn:Hal;
    [|by apply allocate_ids_not_raised in Hal|done].
  intros Hw Hinv.
  assert (pairs_distinct s1) as Hinv1.
  { revert Hal. unfold allocate_ids. unfold_M.
    destruct (ensure_uid_pair deid_acc s) as [u s0| |] eqn:H1; [|done..].
    destruct (tokens_for (tail (f_dirs f)) s0) as [toks' s2| |] eqn:H2; [|done..].
    destruct (gen_uid s2) as [sop' s3| |] eqn:H3; [|done..].
    intros [= _ _ <-].
    apply ensure_uid_pair_distinct in H1; [|done].
    apply tokens_for_pairs in H2.
    apply gen_uid_returned in H3 as (Ha3 & _).
    unfold pairs_distinct in *. by rewrite Ha3, H2. }
  simpl in Hw.
  apply write_and_record_step in Hw as [->|(_ & _ & _ & _ & _ & Ha & _)]; [done|].
  unfold pairs_distinct in *. by rewrite Ha.
Qed.

(** X10: The study UID and the series UID of a pseudonym differ: the two are
    drawn by two calls of the generator in a row.  This holds of every pair
    in the cache at the end of a run, and so of every manifest row. *)
Theorem study_and_series_uid_differ env files readings s :
  main env files readings = Some s →
  (∀ deid_acc pair, accession_uid_map s !! deid_acc = Some pair →
                    study_uid pair ≠ series_uid pair)
  ∧ (∀ row, row ∈ output_manifest s → m_study_uid row ≠ m_series_uid row).
Proof.
  intros Hrun.
  assert (pairs_distinct s) as Hinv.
  { revert Hrun. unfold main. apply main_loop_invariant.
    - intros f s1 s2 _ Hs1 Hstep. by eapply process_file_distinct.
    - unfold pairs_distinct. simpl. apply map_Forall_empty. }
  split; [exact Hinv|].
  intros row Hrow.
  apply run_ok in Hrun as [Hrows _]. rewrite Forall_forall in Hrows.
  destruct (Hrows _ Hrow) as (p & _ & _ & _ & _ & Hp & -> & -> & _).
  apply Hinv in Hp. congruence.
Qed.

(** The pair of the sample run. *)
Lemma study_and_series_uid_differ_witness :
  main Sample.env Sample.two_files Sample.steady = Some Sample.after_two_files
  ∧ accession_uid_map Sample.after_two_files !! "P001"
    = Some {| study_uid := "1.3.6.1.4.1.11129.5.1.202437531";
              series_uid := "1.3.6.1.4.1.11129.5.1.202437532" |}
  ∧ "1.3.6.1.4.1.11129.5.1.202437531" ≠ "1.3.6.1.4.1.11129.5.1.202437532".
Proof.
  split; [vm_compute; reflexivity|]. split; [vm_compute; reflexivity|].
  destruct (study_and_series_uid_differ Sample.env Sample.two_files Sample.steady
              Sample.after_two_files) as [H _]; [vm_compute; reflexivity|].
  apply (H "P001" {| study_uid := "1.3.6.1.4.1.11129.5.1.202437531";
                     series_uid := "1.3.6.1.4.1.11129.5.1.202437532" |}).
  vm_compute; reflexivity.
Defined.

(** ** The run comes to its end *)

Lemma gen_uid_ready s :
  ready s → 1 <= length (clock s) →
  ∃ uid s', gen_uid s = Returned uid s' ∧ ready s'
            ∧ length (clock s) = S (length (clock s'))
            ∧ accession_uid_map s' = accession_uid_map s
            ∧ folder_uid_map s' = folder_uid_map s.
Proof.
  unfold ready, gen_uid. intros [Htick Hhead] Hlen.
  destruct (clock s) as [|n later] eqn:Hc; [simpl in Hlen; lia|].
  simpl. rewrite decide_False by done.
  eexists _, _. split; [done|]. cbn [clock uid_gen set_generator org_root current_uid
                                     accession_uid_map folder_uid_map].
  destruct Htick as [Hnext Htick].
  repeat split; try done.
  destruct later as [|m later]; [done|]. congruence.
Qed.

Lemma ready_set_accession_uid_map m s : ready (set_accession_uid_map m s) ↔ ready s.
Proof. done. Qed.

Lemma ready_set_folder_uid_map m s : ready (set_folder_uid_map m s) ↔ ready s.
Proof. done. Qed.

Lemma ensure_uid_pair_ready deid s :
  ready s → 2 <= length (clock s) →
  ∃ s', ensure_uid_pair deid s = Returned tt s' ∧ ready s'
        ∧ length (clock s) <= 2 + length (clock s').
Proof.
  intros Hr Hlen. unfold ensure_uid_pair. unfold_M.
  destruct (accession_uid_map s !! deid); [exists s; split; [done|split; [done|lia]]|].
  destruct (gen_uid_ready s Hr) as (u1 & s1 & -> & Hr1 & Hl1 & _); [lia|].
  destruct (gen_uid_ready s1 Hr1) as (u2 & s2 & -> & Hr2 & Hl2 & _); [lia|].
  eexists. split; [done|]. split; [by apply ready_set_accession_uid_map|].
  cbn [clock set_accession_uid_map]. lia.
Qed.

Lemma token_for_ready part s :
  ready s → 1 <= length (clock s) →
  ∃ tok s', token_for part s = Returned tok s' ∧ ready s'
            ∧ length (clock s) <= 1 + length (clock s').
Proof.
  intros Hr Hlen. unfold token_for. unfold_M.
  destruct (folder_uid_map s !! part) as [tok|]; [exists tok, s; split; [done|split; [done|lia]]|].
  destruct (gen_uid_ready s Hr) as (u1 & s1 & -> & Hr1 & Hl1 & _); [lia|].
  eexists _, _. split; [done|]. split; [by apply ready_set_folder_uid_map|].
  cbn [clock set_folder_uid_map]. lia.
Qed.

Lemma tokens_for_ready parts s :
  ready s → length parts <= length (clock s) →
  ∃ toks s', tokens_for parts s = Returned toks s' ∧ ready s'
             ∧ length (clock s) <= length parts + length (clock s').
Proof.
  revert s. induction parts as [|part parts IH]; intros s Hr Hlen; simpl in *; unfold_M.
  - exists [], s. split; [done|split; [done|lia]].
  - destruct (token_for_ready part s Hr) as (tok & s1 & -> & Hr1 & Hl1); [lia|].
    destruct (IH s1 Hr1) as (toks & s2 & -> & Hr2 & Hl2); [lia|].
    eexists _, _. split; [done|]. split; [done|]. lia.
Qed.

Lemma allocate_ids_ready deid parts s :
  ready s → 3 + length (tail parts) <= length (clock s) →
  ∃ ids s', allocate_ids deid parts s = Returned ids s' ∧ ready s'
            ∧ length (clock s) <= 3 + length (tail parts) + length (clock s').
Proof.
  intros Hr Hlen. unfold allocate_ids. unfold_M.
  destruct (ensure_uid_pair_ready deid s Hr) as (s1 & -> & Hr1 & Hl1); [lia|].
  destruct (tokens_for_ready (tail parts) s1 Hr1) as (toks & s2 & -> & Hr2 & Hl2); [lia|].
  destruct (gen_uid_ready s2 Hr2) as (sop & s3 & -> & Hr3 & Hl3 & _); [lia|].
  eexists _, _. split; [done|]. split; [done|]. lia.
Qed.

Lemma write_and_record_clock env f ds accession deid_acc toks sop_uid s :
  ∃ s', state_of (write_and_record env f ds accession deid_acc toks sop_uid s) = Some s'
        ∧ clock s' = clock s ∧ uid_gen s' = uid_gen s.
Proof.
  unfold write_and_record. unfold_M.
  destruct (f_makedirs_ok f); unfold_M; cbv beta iota; [|by exists s].
  destruct (accession_uid_map s !! deid_acc); unfold_M; cbv beta iota; [|by exists s].
  destruct (redact _ _ _ _) as [obj' saved|]; unfold_M; cbv beta iota; [|by exists s].
  destruct saved; unfold_M; cbv beta iota;
    destruct (manifest_entry _ _ _ _ _ _); unfold_M; cbv beta iota;
    eexists; (split; [reflexivity|]); done.
Qed.

Lemma process_file_ready env f s :
  ready s → uids_needed f <= length (clock s) →
  ∃ s', state_of (process_file env f s) = Some s' ∧ ready s'
        ∧ length (clock s) <= uids_needed f + length (clock s').
Proof.
  intros Hr Hlen. unfold uids_needed in *.
  destruct (qualifies env f) eqn:Hq.
  2:{ rewrite process_file_unqualified by done. exists s. split; [done|split; [done|lia]]. }
  destruct (process_file_qualified env f s Hq) as (ds & accession & deid_acc & _ & _ & _ & ->).
  unfold process_decoded. unfold mbind at 1. unfold M_bind at 1.
  destruct (allocate_ids_ready deid_acc (f_dirs f) s Hr Hlen) as (ids & s1 & -> & Hr1 & Hl1).
  destruct (write_and_record_clock env f ds accession deid_acc ids.1 ids.2 s1)
    as (s' & Hs' & Hc & Hg).
  exists s'. split; [done|].
  unfold ready in *. rewrite Hc, Hg. split; [done|lia].
Qed.

Lemma main_loop_ready env files s :
  ready s → sum_list (map uids_needed files) <= length (clock s) →
  is_Some (main_loop env files s).
Proof.
  revert s. induction files as [|f files IH]; intros s Hr Hlen; [done|].
  change (uids_needed f + sum_list (map uids_needed files) <= length (clock s)) in Hlen.
  cbn [main_loop].
  destruct (process_file_ready env f s Hr) as (s' & Hs' & Hr' & Hl'); [lia|].
  destruct (process_file env f s) as [u s1|s1|]; simpl in Hs'; [| |done];
    injection Hs' as ->; apply IH; try done; lia.
Qed.

(** X11: The run comes to its end where the clock keeps moving: if any two
    readings in a row format to different identifiers, and the clock holds
    three readings for every file walked and one more for each of its
    folders below the first, the generator never waits in vain and [main]
    returns. *)
Theorem run_completes env files readings :
  ticking (org_root UIDGenerator_init) readings →
  sum_list (map uids_needed files) <= length readings →
  is_Some (main env files readings).
Proof.
  intros Htick Hlen. unfold main. apply main_loop_ready; [|done].
  split; [done|]. simpl. by destruct readings.
Qed.

(** The sample file at the sample clock, whose six readings are a
    microsecond apart. *)
Lemma run_completes_witness :
  ticking (org_root UIDGenerator_init) Sample.steady
  ∧ sum_list (map uids_needed [Sample.first_file]) <= length Sample.steady
  ∧ is_Some (main Sample.env [Sample.first_file] Sample.steady).
Proof.
  assert (ticking (org_root UIDGenerator_init) Sample.steady) as Htick.
  { repeat split; intros H; vm_compute in H; discriminate. }
  assert (sum_list (map uids_needed [Sample.first_file]) <= length Sample.steady) as Hlen.
  { vm_compute. lia. }
  split; [exact Htick|]. split; [exact Hlen|].
  exact (run_completes Sample.env [Sample.first_file] Sample.steady Htick Hlen).
Defined.

(** ** The redactor's hand on the dataset *)

(** X12: [redact] lets an exception escape only from the reads at its head,
    before its second [try]: with pixel data present and the array decoded,
    when [BitsAllocated] is missing or [int] fails on [SamplesPerPixel] or
    on [NumberOfFrames].  Whatever fails later (frame redaction, the
    conversion, [dcmwrite]) is caught and printed. *)
Theorem redact_raises_iff r obj pa ok :
  redact r obj pa ok = RedactRaised ↔
  Ds.has (tag_of PixelData) (elements obj) = true
  ∧ is_Some pa
  ∧ (Ds.get (tag_of BitsAllocated) (elements obj) = None
     ∨ py_int (default (VInt 1) (Ds.get (tag_of SamplesPerPixel) (elements obj))) = None
     ∨ ∃ v, Ds.get (tag_of NumberOfFrames) (elements obj) = Some v ∧ py_int v = None).
Proof.
  unfold redact.
  destruct (Ds.has (tag_of PixelData) (elements obj)); cbn [negb].
  2:{ split; [done|]. by intros [? _]. }
  destruct pa as [arr|].
  2:{ split; [done|]. by intros (_ & [? ?] & _). }
  destruct (Ds.get (tag_of BitsAllocated) (elements obj)) as [bits|].
  2:{ split; [|done]. intros _. eauto. }
  destruct (py_int (default _ _)) as [samples|].
  2:{ split; [|done]. intros _. eauto. }
  unfold frame_count.
  destruct (Ds.get (tag_of NumberOfFrames) (elements obj)) as [v|].
  - destruct (py_int v) as [frames|] eqn:Hv.
    + split.
      * destruct (redact_array _ _ _ _); [|done]. by destruct (py_int bits).
      * intros (_ & _ & [?|[?|(v' & [= <-] & ?)]]); congruence.
    + split; [|done]. intros _. repeat split; eauto.
  - split.
    + destruct (_ || _); (destruct (redact_array _ _ _ _); [|done]);
        by destruct (py_int bits).
    + by intros (_ & _ & [?|[?|(v' & ? & ?)]]).
Qed.

(** X13: The header of every object [redact] writes: [BitsAllocated] keeps its
    value, [BitsStored] is set to it, [HighBit] to one less, and
    [PixelRepresentation] to 0, whatever the dataset declared; the transfer
    syntax is Explicit VR Little Endian and the two encoding attributes say
    so. *)
Theorem redact_header r obj pa ok obj' :
  redact r obj pa ok = RedactReturned obj' true →
  ∃ b, Ds.get (tag_of BitsAllocated) (elements obj) = Some (VInt b)
       ∧ Ds.get (tag_of BitsAllocated) (elements obj') = Some (VInt b)
       ∧ Ds.get (tag_of BitsStored) (elements obj') = Some (VInt b)
       ∧ Ds.get (tag_of HighBit) (elements obj') = Some (VInt (b - 1))
       ∧ Ds.get (tag_of PixelRepresentation) (elements obj') = Some (VInt 0)
       ∧ TransferSyntaxUID (file_meta obj') = Some ExplicitVRLittleEndian
       ∧ is_little_endian obj' = Some true
       ∧ is_implicit_VR obj' = Some false.
Proof.
  unfold redact.
  destruct (Ds.has _ _); cbn [negb]; [|done].
  destruct pa as [arr|]; [|done].
  destruct (Ds.get (tag_of BitsAllocated) _) as [bits|]; [|done].
  destruct (py_int (default _ _)) as [samples|]; [|done].
  destruct (frame_count _ _ _) as [frames|]; [|done].
  destruct (redact_array _ _ _ _) as [arr'|]; [|done].
  destruct bits as [| b | |]; cbn [py_int]; try done.
  intros [= <- _]. exists b. cbn [elements file_meta is_little_endian is_implicit_VR].
  rewrite !DsFacts.get_set.
  repeat split; try done;
    repeat (first [rewrite decide_True by done | rewrite decide_False by (by vm_compute)]);
    done.
Qed.

(** The sample object: 12 bits stored of 16 and signed samples go in, 16
    bits stored and unsigned come out. *)
Lemma redact_header_witness :
  ∃ obj obj',
    Ds.get (tag_of BitsStored) (elements obj) = Some (VInt 12)
    ∧ Ds.get (tag_of PixelRepresentation) (elements obj) = Some (VInt 1)
    ∧ redact (Sample.reader "Selective") obj (Some Sample.pixels) true
      = RedactReturned obj' true
    ∧ Ds.get (tag_of BitsAllocated) (elements obj') = Some (VInt 16)
    ∧ Ds.get (tag_of BitsStored) (elements obj') = Some (VInt 16)
    ∧ Ds.get (tag_of HighBit) (elements obj') = Some (VInt 15)
    ∧ Ds.get (tag_of PixelRepresentation) (elements obj') = Some (VInt 0).
Proof.
  exists (scrubbed Sample.pydicom "P001" {| study_uid := "1.2"; series_uid := "1.3" |} "1.4"
            (Sample.dataset "A123")).
  eexists. split; [vm_compute; reflexivity|]. split; [vm_compute; reflexivity|].
  split; [vm_compute; reflexivity|].
  match goal with
  | |- context [Ds.get _ (elements ?o)] =>
      destruct (redact_header (Sample.reader "Selective")
                  (scrubbed Sample.pydicom "P001"
                     {| study_uid := "1.2"; series_uid := "1.3" |} "1.4"
                     (Sample.dataset "A123"))
                  (Some Sample.pixels) true o)
        as (b & H0 & H1 & H2 & H3 & H4 & _); [vm_compute; reflexivity|]
  end.
  assert (b = 16%Z) as -> by (vm_compute in H0; congruence).
  repeat split; assumption.
Defined.



(** ** The rectangle of a detection *)

Lemma clamp_bounds v n : 0 < n → (0 <= clamp v n < Z.of_nat n)%Z.
Proof. unfold clamp. lia. Qed.

(** X15: On a frame with at least one row and one column, both corners handed
    to [cv2.rectangle] lie inside the frame, wherever the reader put the
    quadrilateral. *)
Theorem corners_in_frame rows cols d :
  0 < rows → 0 < cols →
  (0 <= (corners rows cols d).1.1 < Z.of_nat cols
   ∧ 0 <= (corners rows cols d).1.2 < Z.of_nat rows
   ∧ 0 <= (corners rows cols d).2.1 < Z.of_nat cols
   ∧ 0 <= (corners rows cols d).2.2 < Z.of_nat rows)%Z.
Proof.
  intros Hr Hc. unfold corners. destruct (bbox d) as [[[tl tr] br] bl]. cbn [fst snd].
  pose proof (clamp_bounds tl.1 cols Hc). pose proof (clamp_bounds tl.2 rows Hr).
  pose proof (clamp_bounds br.1 cols Hc). pose proof (clamp_bounds br.2 rows Hr).
  lia.
Qed.

(** A detection that overshoots the 40 x 60 frame on all sides. *)
Lemma corners_in_frame_witness :
  0 < 40 ∧ 0 < 60
  ∧ corners 40 60 (Sample.box (-5) (-7) 200 300 "DOE JOHN" Sample.sure)
    = ((0, 0), (59, 39))%Z
  ∧ (0 <= (corners 40 60 (Sample.box (-5) (-7) 200 300 "DOE JOHN" Sample.sure)).2.1 < 60)%Z.
Proof.
  split; [lia|]. split; [lia|]. split; [reflexivity|].
  apply (corners_in_frame 40 60 (Sample.box (-5) (-7) 200 300 "DOE JOHN" Sample.sure));
    lia.
Defined.

(** X16: Every detection that is masked blanks at least one pixel of a frame
    that has one: the pixel at its clamped top-left corner, also when the
    quadrilateral lies outside the frame altogether. *)
Theorem masked_detection_blanks_pixel mode rows cols results d :
  0 < rows → 0 < cols →
  d ∈ results → redacts mode d = true →
  ∃ x y, x < cols ∧ y < rows
         ∧ Z.of_nat x = (corners rows cols d).1.1
         ∧ Z.of_nat y = (corners rows cols d).1.2
         ∧ at2 (build_mask mode rows cols results) x y = Some 0%Z.
Proof.
  intros Hr Hc Hin Hd.
  assert (0 <= (corners rows cols d).1.1 < Z.of_nat cols
          ∧ 0 <= (corners rows cols d).1.2 < Z.of_nat rows)%Z as [Hx Hy].
  { unfold corners. destruct (bbox d) as [[[tl tr] br] bl]. cbn [fst snd].
    split; by apply clamp_bounds. }
  destruct (corners rows cols d) as [tl br] eqn:Hcor. cbn [fst snd] in Hx, Hy.
  exists (Z.to_nat tl.1), (Z.to_nat tl.2). cbn [fst snd].
  split; [lia|]. split; [lia|]. split; [lia|]. split; [lia|].
  rewrite at2_build_mask by lia.
  replace (covered mode rows cols results (Z.to_nat tl.1) (Z.to_nat tl.2)) with true; [done|].
  symmetry. unfold covered. apply existsb_exists. exists d.
  split; [by apply list_elem_of_In|].
  rewrite Hd, Hcor. cbn [fst snd andb]. unfold in_box.
  rewrite !Z2Nat.id by lia. lia.
Qed.

(** A name found to the right of a 2 x 3 frame: the last pixel of the
    first row is blanked. *)
Lemma masked_detection_blanks_pixel_witness :
  0 < 2 ∧ 0 < 3
  ∧ redacts "Selective" (Sample.box 10 0 20 0 "DOE JOHN" Sample.sure) = true
  ∧ ∃ x y, x < 3 ∧ y < 2
           ∧ at2 (build_mask "Selective" 2 3
                    [Sample.box 10 0 20 0 "DOE JOHN" Sample.sure]) x y = Some 0%Z.
Proof.
  split; [lia|]. split; [lia|]. split; [reflexivity|].
  destruct (masked_detection_blanks_pixel "Selective" 2 3
              [Sample.box 10 0 20 0 "DOE JOHN" Sample.sure]
              (Sample.box 10 0 20 0 "DOE JOHN" Sample.sure))
    as (x & y & Hx & Hy & _ & _ & H); [lia|lia|apply list_elem_of_here|reflexivity|].
  by exists x, y.
Defined.

(** ** The two modes *)

Lemma redacts_full mode d : redacts mode d = true → redacts "Full" d = true.
Proof.
  unfold redacts. intros [H _]%andb_true_iff. rewrite H.
  replace ("Full" =? "Full")%string with true by reflexivity. done.
Qed.

(** X17: Full mode masks at least what any other mode masks: a pixel marked in
    the mask of some mode is marked in the mask Full mode builds from the
    same detections. *)
Theorem full_mode_masks_more mode rows cols results x y :
  x < cols → y < rows →
  at2 (build_mask mode rows cols results) x y = Some 0%Z →
  at2 (build_mask "Full" rows cols results) x y = Some 0%Z.
Proof.
  intros Hx Hy. rewrite !at2_build_mask by done.
  destruct (covered mode rows cols results x y) eqn:Hcov; [|done]. intros _.
  replace (covered "Full" rows cols results x y) with true; [done|].
  symmetry. unfold covered in *. apply existsb_exists.
  apply existsb_exists in Hcov as (d & Hin & [Hd Hbox]%andb_true_iff).
  exists d. split; [done|]. by rewrite (redacts_full _ _ Hd), Hbox.
Qed.

(** The pixel under the name on the sample frame. *)
Lemma full_mode_masks_more_witness :
  0 < 3 ∧ 0 < 2
  ∧ at2 (build_mask "Selective" 2 3 Sample.detections) 0 0 = Some 0%Z
  ∧ at2 (build_mask "Full" 2 3 Sample.detections) 0 0 = Some 0%Z.
Proof.
  split; [lia|]. split; [lia|]. split; [reflexivity|].
  apply (full_mode_masks_more "Selective" 2 3 Sample.detections 0 0); [lia|lia|reflexivity].
Defined.

(** ** Frames that come back as they went *)






(** ** The shape of a redacted frame *)











(** ** Batches *)

Lemma insert_desc_perm it l : insert_desc it l ≡ₚ it :: l.
Proof.
  induction l as [|x l IH]; simpl; [done|].
  destruct (it.2 <? x.2)%Z; [|done]. rewrite IH. apply Permutation_swap.
Qed.

Lemma sorted_desc_perm items : sorted_desc items ≡ₚ items.
Proof.
  induction items as [|it items IH]; simpl; [done|].
  by rewrite insert_desc_perm, IH.
Qed.

Lemma best_fit_none size free i best :
  best_fit size i free best = None ↔ best = None ∧ Forall (fun f => (f < size)%Z) free.
Proof.
  revert i best. induction free as [|space free IH]; intros i best; simpl.
  - split; [by intros ->|by intros [-> _]].
  - rewrite IH. rewrite Forall_cons.
    destruct (size <=? space)%Z eqn:Hfit.
    + split; [|intros (_ & ? & _); lia].
      intros [H _]. destruct best as [[? ba]|]; [|done]. by destruct (_ <? ba)%Z.
    + split; [intros [-> ?]|intros (-> & _ & ?)]; repeat split; try done; lia.
Qed.

(** What the loop returns: a bin the item fits, with the least room left
    among the bins it fits, and the first of these. *)
Lemma best_fit_some size free i best idx after :
  (∀ bi ba, best = Some (bi, ba) → bi < i) →
  best_fit size i free best = Some (idx, after) →
  (best = Some (idx, after)
   ∨ ∃ k, idx = i + k ∧ free !! k = Some (size + after)%Z ∧ (0 <= after)%Z)
  ∧ (∀ bi ba, best = Some (bi, ba) → (after < ba)%Z ∨ (after = ba ∧ idx = bi))
  ∧ (∀ k f, free !! k = Some f → (size <= f)%Z →
            (after < f - size)%Z ∨ (after = (f - size)%Z ∧ (idx <= i + k)%nat)).
Proof.
  revert i best. induction free as [|space free IH]; intros i best Hbest; simpl.
  - intros ->. split; [by left|]. split; [|done].
    intros bi ba [= <- <-]. by right.
  - intros H. apply IH in H as (Hwhere & Hacc & Hmin).
    2:{ intros bi ba. destruct (size <=? space)%Z.
        - destruct best as [[bi' ba']|].
          + destruct (_ <? ba')%Z; intros [= <- <-]; [lia|].
            specialize (Hbest _ _ eq_refl). lia.
          + intros [= <- <-]. lia.
        - intros Hb. specialize (Hbest _ _ Hb). lia. }
    destruct (size <=? space)%Z eqn:Hfit.
    + apply Z.leb_le in Hfit.
      destruct best as [[bi ba]|].
      * destruct (space - size <? ba)%Z eqn:Hlt.
        -- apply Z.ltb_lt in Hlt.
           split; [|split].
           ++ right. destruct Hwhere as [[= <- <-]|(k & -> & Hk & Hpos)].
              ** exists 0. rewrite Nat.add_0_r. simpl.
                 split; [done|]. split; [f_equal; lia|lia].
              ** exists (S k). split; [lia|]. done.
           ++ intros ? ? [= <- <-]. specialize (Hacc _ _ eq_refl). lia.
           ++ intros [|k] f Hf Hsz; simpl in Hf.
              ** injection Hf as <-. specialize (Hacc _ _ eq_refl).
                 destruct Hacc as [?|[-> ->]]; [left; lia|right; lia].
              ** destruct (Hmin k f Hf Hsz) as [?|[? ?]]; [by left|right; lia].
        -- apply Z.ltb_ge in Hlt.
           split; [|split].
           ++ destruct Hwhere as [?|(k & -> & Hk & Hpos)]; [by left|].
              right. exists (S k). split; [lia|]. done.
           ++ done.
           ++ intros [|k] f Hf Hsz; simpl in Hf.
              ** injection Hf as <-. specialize (Hacc _ _ eq_refl).
                 specialize (Hbest _ _ eq_refl).
                 destruct Hacc as [?|[-> ->]]; [left; lia|].
                 destruct (decide (ba = space - size)%Z); [right; lia|left; lia].
              ** destruct (Hmin k f Hf Hsz) as [?|[? ?]]; [by left|right; lia].
      * split; [|split].
        -- right. destruct Hwhere as [[= <- <-]|(k & -> & Hk & Hpos)].
           ++ exists 0. rewrite Nat.add_0_r. simpl.
              split; [done|]. split; [f_equal; lia|lia].
           ++ exists (S k). split; [lia|]. done.
        -- done.
        -- intros [|k] f Hf Hsz; simpl in Hf.
           ++ injection Hf as <-. specialize (Hacc _ _ eq_refl).
              destruct Hacc as [?|[-> ->]]; [left; lia|right; lia].
           ++ destruct (Hmin k f Hf Hsz) as [?|[? ?]]; [by left|right; lia].
    + apply Z.leb_gt in Hfit.
      split; [|split].
      * destruct Hwhere as [?|(k & -> & Hk & Hpos)]; [by left|].
        right. exists (S k). split; [lia|]. done.
      * done.
      * intros [|k] f Hf Hsz; simpl in Hf.
        -- injection Hf as <-. lia.
        -- destruct (Hmin k f Hf Hsz) as [?|[? ?]]; [by left|right; lia].
Qed.

(** X20: The bin that the selection loop of [best_fit_decreasing] picks for a
    size: [None] exactly when the size fits no bin; otherwise a bin it
    fits, with the least room left after the item among all the bins it
    fits, and the first of these in the list. *)
Theorem best_fit_tightest size free :
  match best_fit size 0 free None with
  | None => Forall (fun f => (f < size)%Z) free
  | Some (best_idx, after) =>
      free !! best_idx = Some (size + after)%Z
      ∧ (0 <= after)%Z
      ∧ ∀ k f, free !! k = Some f → (size <= f)%Z →
               (after < f - size)%Z ∨ (after = (f - size)%Z ∧ (best_idx <= k)%nat)
  end.
Proof.
  destruct (best_fit size 0 free None) as [[idx after]|] eqn:H.
  - pose proof (best_fit_some size free 0 None idx after ltac:(done) H)
      as ([?|(k & -> & Hk & Hpos)] & _ & Hmin); [done|].
    repeat split; done.
  - by apply best_fit_none in H as [_ ?].
Qed.

(** The three ways the loop body goes. *)
Lemma place_cases capacity p it :
  ((capacity < it.2)%Z
   ∧ place capacity p it
     = {| bins := bins p ++ [[it]]; free_space := free_space p ++ [0%Z] |})
  ∨ ((it.2 <= capacity)%Z
     ∧ Forall (fun f => (f < it.2)%Z) (free_space p)
     ∧ place capacity p it
       = {| bins := bins p ++ [[it]];
            free_space := free_space p ++ [(capacity - it.2)%Z] |})
  ∨ ((it.2 <= capacity)%Z
     ∧ ∃ idx f, free_space p !! idx = Some f ∧ (it.2 <= f)%Z
         ∧ place capacity p it
           = {| bins := alter (fun b => b ++ [it]) idx (bins p);
                free_space := alter (fun space => (space - it.2)%Z) idx (free_space p) |}).
Proof.
  unfold place. destruct (capacity <? it.2)%Z eqn:Hover.
  - apply Z.ltb_lt in Hover. left. split; [done|].
    by rewrite Z.max_l by lia.
  - apply Z.ltb_ge in Hover. right.
    destruct (best_fit it.2 0 (free_space p) None) as [[idx after]|] eqn:H.
    + right. split; [done|].
      pose proof (best_fit_some it.2 (free_space p) 0 None idx after ltac:(done) H)
        as ([?|(k & -> & Hf & Hpos)] & _); [done|].
      exists k, (it.2 + after)%Z. split; [done|]. split; [lia|done].
    + left. by apply best_fit_none in H as [_ ?].
Qed.

Lemma bsize_snoc b it : bsize (b ++ [it]) = (bsize b + it.2)%Z.
Proof.
  unfold bsize. induction b as [|x b IH]; simpl in *; [lia|]. rewrite IH. lia.
Qed.

Lemma concat_alter_snoc (bs : list (list Item)) idx it :
  idx < length bs →
  concat (alter (fun b => b ++ [it]) idx bs) ≡ₚ concat bs ++ [it].
Proof.
  revert idx. induction bs as [|b bs IH]; intros [|idx] Hlt; simpl in Hlt; try lia.
  - change (concat ((b ++ [it]) :: bs) ≡ₚ concat (b :: bs) ++ [it]). simpl.
    rewrite <- !app_assoc. apply Permutation_app_head. apply Permutation_app_comm.
  - change (concat (b :: alter (fun b => b ++ [it]) idx bs) ≡ₚ concat (b :: bs) ++ [it]).
    simpl. rewrite IH by lia. by rewrite app_assoc.
Qed.

Lemma fold_place_perm capacity l p :
  length (bins p) = length (free_space p) →
  Forall (fun b => b ≠ []) (bins p) →
  length (bins (fold_left (place capacity) l p))
  = length (free_space (fold_left (place capacity) l p))
  ∧ Forall (fun b => b ≠ []) (bins (fold_left (place capacity) l p))
  ∧ concat (bins (fold_left (place capacity) l p)) ≡ₚ concat (bins p) ++ l.
Proof.
  revert p. induction l as [|it l IH]; intros p Hlen Hne; cbn [fold_left].
  { rewrite app_nil_r. done. }
  assert (length (bins (place capacity p it)) = length (free_space (place capacity p it))
          ∧ Forall (fun b => b ≠ []) (bins (place capacity p it))
          ∧ concat (bins (place capacity p it)) ≡ₚ concat (bins p) ++ [it]) as (H1 & H2 & H3).
  { destruct (place_cases capacity p it)
      as [[_ ->]|[(_ & _ & ->)|(_ & idx & f & Hf & _ & ->)]]; cbn [bins free_space].
    - rewrite !length_app, Hlen. split; [done|]. split.
      + apply Forall_app. split; [done|]. by repeat constructor.
      + rewrite concat_app. simpl. done.
    - rewrite !length_app, Hlen. split; [done|]. split.
      + apply Forall_app. split; [done|]. by repeat constructor.
      + rewrite concat_app. simpl. done.
    - rewrite !length_alter. split; [done|]. split.
      + apply Forall_alter; [done|]. intros b _ _. by destruct b.
      + apply concat_alter_snoc. rewrite Hlen. by eapply lookup_lt_Some. }
  destruct (IH _ H1 H2) as (I1 & I2 & I3).
  split; [done|]. split; [done|].
  rewrite I3, H3, <- app_assoc. done.
Qed.

Lemma length_concat_nonempty {A} (l : list (list A)) :
  Forall (fun b => b ≠ []) l → (length l <= length (concat l))%nat.
Proof.
  induction 1 as [|b l Hb _ IH]; simpl; [done|].
  rewrite length_app. destruct b; [done|]. simpl. lia.
Qed.

(** X21: The plan loses no item and invents none: the batches, laid end to
    end, are a rearrangement of the items.  No batch is empty, so there are
    at most as many batches as items. *)
Theorem best_fit_decreasing_partitions items capacity :
  concat (best_fit_decreasing items capacity) ≡ₚ items
  ∧ Forall (fun b => b ≠ []) (best_fit_decreasing items capacity)
  ∧ (length (best_fit_decreasing items capacity) <= length items)%nat.
Proof.
  unfold best_fit_decreasing.
  destruct (fold_place_perm capacity (sorted_desc items) {| bins := []; free_space := [] |})
    as (_ & Hne & Hperm); [done|constructor|].
  pose proof (Permutation_trans Hperm (sorted_desc_perm items)) as Hitems.
  split; [done|]. split; [done|].
  rewrite <- (Permutation_length Hitems). by apply length_concat_nonempty.
Qed.

(** An invariant of the pairs of a bin and its free space. *)
Lemma fold_place_Forall2 capacity (R : list Item → Z → Prop) l p :
  (∀ it, it ∈ l → (capacity < it.2)%Z → R [it] 0%Z) →
  (∀ it, it ∈ l → (it.2 <= capacity)%Z → R [it] (capacity - it.2)%Z) →
  (∀ it b f, it ∈ l → (it.2 <= capacity)%Z → (it.2 <= f)%Z → R b f →
             R (b ++ [it]) (f - it.2)%Z) →
  Forall2 R (bins p) (free_space p) →
  Forall2 R (bins (fold_left (place capacity) l p))
            (free_space (fold_left (place capacity) l p)).
Proof.
  revert p. induction l as [|it l IH]; intros p Hover Hnew Hadd Hp; cbn [fold_left]; [done|].
  apply IH.
  - intros ? ?. apply Hover. by apply list_elem_of_further.
  - intros ? ?. apply Hnew. by apply list_elem_of_further.
  - intros ? ? ? ?. apply Hadd. by apply list_elem_of_further.
  - destruct (place_cases capacity p it)
      as [[Hc ->]|[(Hc & _ & ->)|(Hc & idx & f & Hf & Hfit & ->)]]; cbn [bins free_space].
    + apply Forall2_app; [done|]. constructor; [|constructor].
      apply Hover; [apply list_elem_of_here|done].
    + apply Forall2_app; [done|]. constructor; [|constructor].
      apply Hnew; [apply list_elem_of_here|done].
    + apply Forall2_alter; [done|]. intros b f' _ Hf' Hb.
      rewrite Hf in Hf'. injection Hf' as <-.
      apply Hadd; [apply list_elem_of_here|done..].
Qed.

(** X22: A batch is within the capacity unless it holds an item that alone is
    larger than the capacity. *)
Theorem batch_within_capacity items capacity b :
  b ∈ best_fit_decreasing items capacity →
  (bsize b <= capacity)%Z ∨ ∃ it, it ∈ b ∧ (capacity < it.2)%Z.
Proof.
  unfold best_fit_decreasing. intros Hb.
  assert (Forall2 (fun b f => Forall (fun it => (it.2 <= capacity)%Z) b →
                              f = (capacity - bsize b)%Z ∧ (0 <= f)%Z)
            (bins (fold_left (place capacity) (sorted_desc items)
                     {| bins := []; free_space := [] |}))
            (free_space (fold_left (place capacity) (sorted_desc items)
                           {| bins := []; free_space := [] |}))) as H.
  { apply fold_place_Forall2.
    - intros it _ Hc Hall. apply Forall_cons in Hall as [? _]. lia.
    - intros it _ Hc _. unfold bsize. simpl. lia.
    - intros it b' f _ Hc Hfit Hb' Hall. apply Forall_app in Hall as [Hall _].
      destruct (Hb' Hall) as [-> ?]. rewrite bsize_snoc. lia.
    - constructor. }
  apply list_elem_of_lookup_1 in Hb as [i Hi].
  destruct (Forall2_lookup_l _ _ _ _ _ H Hi) as (f & _ & Hf).
  destruct (decide (Forall (fun it : Item => (it.2 <= capacity)%Z) b)) as [Hall|Hex].
  - left. destruct (Hf Hall). lia.
  - right. apply not_Forall_Exists in Hex; [|apply _].
    apply Exists_exists in Hex as (it & ? & Hit). exists it. split; [done|].
    simpl in Hit. lia.
Qed.

(** The sample plan at capacity 10: the batch of [a] and [c] is full, the
    batch of [d] is over the capacity by [d] alone. *)
Lemma batch_within_capacity_witness :
  best_fit_decreasing Batch.children 10
  = [ [(["d"], 12); (["e"], 0)]; [(["a"], 6); (["c"], 4)]; [(["b"], 5)] ]%Z
  ∧ ((bsize [(["a"], 6); (["c"], 4)] <= 10)%Z
     ∨ ∃ it, it ∈ [(["a"], 6); (["c"], 4)]%Z ∧ (10 < it.2)%Z).
Proof.
  split; [reflexivity|].
  apply (batch_within_capacity Batch.children 10).
  apply list_elem_of_further, list_elem_of_here.
Defined.

Lemma elem_of_sorted_desc it items : it ∈ sorted_desc items → it ∈ items.
Proof. intros H. by rewrite <- (sorted_desc_perm items). Qed.

(** X23: An item larger than the capacity opens a batch of its own, and with
    sizes that are not negative nothing but items of size zero joins it
    later: the batch is the oversize item followed by empty items. *)
Theorem oversize_batch items capacity b it :
  Forall (fun x => (0 <= x.2)%Z) items →
  b ∈ best_fit_decreasing items capacity →
  it ∈ b → (capacity < it.2)%Z →
  ∃ rest, b = it :: rest ∧ Forall (fun x => x.2 = 0%Z) rest.
Proof.
  unfold best_fit_decreasing. intros Hpos Hb Hit Hover.
  rewrite Forall_forall in Hpos.
  assert (Forall2 (fun b f =>
                     (∃ x rest, b = x :: rest ∧ (capacity < x.2)%Z ∧ f = 0%Z
                                ∧ Forall (fun y => y.2 = 0%Z ∧ (y.2 <= capacity)%Z) rest)
                     ∨ Forall (fun y => (y.2 <= capacity)%Z) b)
            (bins (fold_left (place capacity) (sorted_desc items)
                     {| bins := []; free_space := [] |}))
            (free_space (fold_left (place capacity) (sorted_desc items)
                           {| bins := []; free_space := [] |}))) as H.
  { apply fold_place_Forall2.
    - intros x _ Hc. left. exists x, []. repeat split; try done.
    - intros x _ Hc. right. by repeat constructor.
    - intros x b' f Hx%elem_of_sorted_desc Hc Hfit [(y & rest & -> & Hy & -> & Hrest)|Hall].
      + left. exists y, (rest ++ [x]). specialize (Hpos _ Hx). simpl in Hpos.
        split; [done|]. split; [done|]. split; [lia|].
        apply Forall_app. split; [done|]. repeat constructor; lia.
      + right. apply Forall_app. split; [done|]. by repeat constructor.
    - constructor. }
  apply list_elem_of_lookup_1 in Hb as [i Hi].
  destruct (Forall2_lookup_l _ _ _ _ _ H Hi) as (f & _ & [(y & rest & -> & Hy & _ & Hrest)|Hall]).
  - apply elem_of_cons in Hit as [->|Hit].
    + exists rest. split; [done|]. eapply Forall_impl; [exact Hrest|]. by intros ? [? _].
    + rewrite Forall_forall in Hrest. destruct (Hrest _ Hit). lia.
  - rewrite Forall_forall in Hall. specialize (Hall _ Hit). simpl in Hall. lia.
Qed.

(** The sample plan at capacity 10: [d], of size 12, shares its batch
    with the empty [e]. *)
Lemma oversize_batch_witness :
  Forall (fun x : Item => (0 <= x.2)%Z) Batch.children
  ∧ best_fit_decreasing Batch.children 10
    = [ [(["d"], 12); (["e"], 0)]; [(["a"], 6); (["c"], 4)]; [(["b"], 5)] ]%Z
  ∧ ∃ rest, [(["d"], 12); (["e"], 0)]%Z = (["d"], 12%Z) :: rest
            ∧ Forall (fun x : Item => x.2 = 0%Z) rest.
Proof.
  assert (Forall (fun x : Item => (0 <= x.2)%Z) Batch.children) as Hpos
    by (repeat constructor; simpl; lia).
  split; [exact Hpos|]. split; [reflexivity|].
  apply (oversize_batch Batch.children 10 _ (["d"], 12%Z) Hpos);
    [apply list_elem_of_here|apply list_elem_of_here|simpl; lia].
Defined.

(** ** No batch opened that an earlier one had room for *)

Lemma bsize_nonneg (b : list Item) :
  Forall (fun x => (0 <= x.2)%Z) b → (0 <= bsize b)%Z.
Proof.
  unfold bsize. induction 1 as [|x b Hx _ IH]; simpl in *; lia.
Qed.

Lemma place_packed capacity p it :
  (0 <= it.2)%Z → packed capacity p → packed capacity (place capacity p it).
Proof.
  intros Hpos [Hpairs Hq].
  pose proof (Forall2_length _ _ _ Hpairs) as Hlen.
  assert (∀ i bi, bins p !! i = Some bi → (0 <= bsize bi)%Z) as Hnn.
  { intros i bi Hi. destruct (Forall2_lookup_l _ _ _ _ _ Hpairs Hi) as (f & _ & _ & ? & _).
    by apply bsize_nonneg. }
  assert (∀ f0, ((capacity < it.2)%Z ∨ Forall (fun f => (f < it.2)%Z) (free_space p)) →
                (capacity - it.2 <= f0)%Z →
                packed capacity {| bins := bins p ++ [[it]];
                                   free_space := free_space p ++ [f0] |}) as Hnew.
  { intros f0 Hwhy Hf0. split; cbn [bins free_space].
    - apply Forall2_app; [done|]. constructor; [|constructor].
      split; [done|]. split; [by repeat constructor|]. unfold bsize. simpl. lia.
    - intros i j bi bj Hij Hi Hj.
      apply lookup_app_Some in Hj as [Hj|[Hge Hj]].
      + apply (Hq i j); try done.
        rewrite lookup_app_l in Hi; [done|]. apply lookup_lt_Some in Hj. lia.
      + apply list_lookup_singleton_Some in Hj as [Hj <-].
        rewrite lookup_app_l in Hi by lia.
        exists it, []. split; [done|].
        destruct Hwhy as [Hover|Hnone].
        * specialize (Hnn _ _ Hi). lia.
        * destruct (Forall2_lookup_l _ _ _ _ _ Hpairs Hi) as (f & Hf & _ & _ & Hroom).
          rewrite Forall_forall in Hnone.
          specialize (Hnone f (list_elem_of_lookup_2 _ _ _ Hf)). simpl in Hnone. lia. }
  destruct (place_cases capacity p it)
    as [[Hc ->]|[(Hc & Hnone & ->)|(Hc & idx & f & Hf & Hfit & ->)]].
  - apply Hnew; [by left|lia].
  - apply Hnew; [by right|lia].
  - split; cbn [bins free_space].
    + apply Forall2_alter; [done|]. intros b f' _ Hf' (Hne & Hb & Hroom).
      rewrite Hf in Hf'. injection Hf' as <-.
      split; [by destruct b|]. split; [apply Forall_app; split; [done|by repeat constructor]|].
      rewrite bsize_snoc. lia.
    + intros i j bi bj Hij Hi Hj.
      assert (∀ k bk, alter (fun b => b ++ [it]) idx (bins p) !! k = Some bk →
                ∃ bk0, bins p !! k = Some bk0
                       ∧ (bk = bk0 ∨ bk = bk0 ++ [it])) as Hold.
      { intros k bk Hk. rewrite list_lookup_alter in Hk.
        destruct (decide (idx = k)) as [->|]; [|eauto].
        destruct (bins p !! k) as [bk0|]; [|done]. injection Hk as <-. eauto. }
      apply Hold in Hi as (bi0 & Hi0 & Hbi). apply Hold in Hj as (bj0 & Hj0 & Hbj).
      destruct (Hq i j bi0 bj0 Hij Hi0 Hj0) as (first & rest & -> & Hgt).
      assert (bsize bi0 <= bsize bi)%Z as Hle.
      { destruct Hbi as [->| ->]; [lia|]. rewrite bsize_snoc. lia. }
      destruct Hbj as [->| ->].
      * exists first, rest. split; [done|lia].
      * exists first, (rest ++ [it]). split; [done|lia].
Qed.

(** X24: With sizes that are not negative, no batch was opened that an earlier
    batch had room for: the first item of a batch, added to what any
    earlier batch holds at the end, exceeds the capacity. *)
Theorem later_batch_fits_no_earlier items capacity i j bi bj :
  Forall (fun x => (0 <= x.2)%Z) items →
  i < j →
  best_fit_decreasing items capacity !! i = Some bi →
  best_fit_decreasing items capacity !! j = Some bj →
  ∃ first rest, bj = first :: rest ∧ (capacity < bsize bi + first.2)%Z.
Proof.
  unfold best_fit_decreasing. intros Hpos Hij.
  assert (packed capacity (fold_left (place capacity) (sorted_desc items)
                             {| bins := []; free_space := [] |})) as [_ Hq].
  { assert (Forall (fun x : Item => (0 <= x.2)%Z) (sorted_desc items)) as Hs.
    { rewrite Forall_forall in *. intros x Hx. by apply Hpos, elem_of_sorted_desc. }
    assert (packed capacity {| bins := []; free_space := [] |}) as H0.
    { split; [constructor|]. intros ? ? ? ? _ H. done. }
    revert H0. generalize {| bins := []; free_space := [] |}.
    induction Hs as [|x l Hx _ IH]; intros p Hp; cbn [fold_left]; [done|].
    apply IH. by apply place_packed. }
  by apply Hq.
Qed.

(** The sample plan at capacity 10: [b], which opens the third batch, did
    not fit the batch of [a]. *)
Lemma later_batch_fits_no_earlier_witness :
  Forall (fun x : Item => (0 <= x.2)%Z) Batch.children
  ∧ 1 < 2
  ∧ best_fit_decreasing Batch.children 10 !! 1 = Some [(["a"], 6); (["c"], 4)]%Z
  ∧ best_fit_decreasing Batch.children 10 !! 2 = Some [(["b"], 5)]%Z
  ∧ ∃ first rest, [(["b"], 5%Z)] = first :: rest
                  ∧ (10 < bsize [(["a"], 6); (["c"], 4)] + first.2)%Z.
Proof.
  assert (Forall (fun x : Item => (0 <= x.2)%Z) Batch.children) as Hpos
    by (repeat constructor; simpl; lia).
  split; [exact Hpos|]. split; [lia|]. split; [reflexivity|]. split; [reflexivity|].
  apply (later_batch_fits_no_earlier Batch.children 10 1 2); [exact Hpos|lia|reflexivity..].
Defined.

(** ** Keys *)

Lemma relative_to_app file root rel :
  relative_to file root = Some rel → file = root ++ rel.
Proof.
  revert file. induction root as [|r root IH]; intros file; simpl.
  - by intros [= ->].
  - destruct file as [|f file]; [done|].
    destruct (String.eqb f r) eqn:Hfr; [|done].
    apply String.eqb_eq in Hfr as ->. intros H. by rewrite (IH _ H).
Qed.

Lemma append_nil b : "" +:+ b = b.
Proof. reflexivity. Qed.

Lemma append_cons c a b : String c a +:+ b = String c (a +:+ b).
Proof. reflexivity. Qed.

Lemma append_cancel_l p a b : p +:+ a = p +:+ b → a = b.
Proof.
  induction p as [|c p IH]; rewrite ?append_nil, ?append_cons; [done|].
  intros [= H]. auto.
Qed.

Lemma slash_free_app a b : slash_free (a +:+ String "/" b) = false.
Proof.
  induction a as [|c a IH]; rewrite ?append_nil, ?append_cons; simpl; [done|].
  rewrite IH. apply andb_false_r.
Qed.

Lemma split_at_slash a a' r r' :
  slash_free a = true → slash_free a' = true →
  a +:+ String "/" r = a' +:+ String "/" r' → a = a' ∧ r = r'.
Proof.
  revert a'. induction a as [|c a IH]; intros [|c' a'] Ha Ha' H;
    rewrite ?append_nil, ?append_cons in H; simpl in Ha, Ha'.
  - by injection H as ->.
  - injection H as <- _. done.
  - injection H as -> _. done.
  - injection H as -> H.
    apply andb_true_iff in Ha as [_ Ha]. apply andb_true_iff in Ha' as [_ Ha'].
    destruct (IH _ Ha Ha' H) as [-> ->]. done.
Qed.

Lemma concat_cons x y l :
  String.concat "/" (x :: y :: l) = x +:+ String "/" (String.concat "/" (y :: l)).
Proof. done. Qed.

Lemma concat_slash_inj l1 l2 :
  l1 ≠ [] → l2 ≠ [] →
  Forall (fun s => slash_free s = true) l1 → Forall (fun s => slash_free s = true) l2 →
  String.concat "/" l1 = String.concat "/" l2 → l1 = l2.
Proof.
  intros Hne1 Hne2 H1. revert l2 Hne2.
  induction H1 as [|x l1 Hx H1 IH]; intros l2 Hne2 H2 Heq; [done|].
  destruct H2 as [|y l2 Hy H2]; [done|].
  destruct l1 as [|x' l1], l2 as [|y' l2].
  - simpl in Heq. by subst.
  - rewrite (concat_cons y) in Heq. change (String.concat "/" [x]) with x in Heq.
    subst x. by rewrite slash_free_app in Hx.
  - rewrite (concat_cons x) in Heq. change (String.concat "/" [y]) with y in Heq.
    subst y. by rewrite slash_free_app in Hy.
  - rewrite !concat_cons in Heq.
    apply split_at_slash in Heq as [-> Heq]; [|done..].
    f_equal. by apply IH.
Qed.

Lemma posix_inj l1 l2 :
  l1 ≠ [] → l2 ≠ [] →
  Forall (fun s => slash_free s = true) l1 → Forall (fun s => slash_free s = true) l2 →
  posix l1 = posix l2 → l1 = l2.
Proof.
  intros Hne1 Hne2 H1 H2. unfold posix.
  destruct l1 as [|x l1]; [done|]. destruct l2 as [|y l2]; [done|].
  by apply concat_slash_inj.
Qed.

(** X25: Two files below the root never get the same key under one prefix:
    where no part of the two paths holds a slash, equal keys mean equal
    paths. *)
Theorem build_s3_key_injective file1 file2 root prefix key :
  build_s3_key file1 root prefix = Some key →
  build_s3_key file2 root prefix = Some key →
  Forall (fun s => slash_free s = true) file1 →
  Forall (fun s => slash_free s = true) file2 →
  file1 ≠ root → file2 ≠ root →
  file1 = file2.
Proof.
  unfold build_s3_key. intros H1 H2 S1 S2 N1 N2.
  destruct (relative_to file1 root) as [rel1|] eqn:R1; [|done].
  destruct (relative_to file2 root) as [rel2|] eqn:R2; [|done].
  apply relative_to_app in R1 as ->. apply relative_to_app in R2 as ->.
  apply Forall_app in S1 as [_ S1]. apply Forall_app in S2 as [_ S2].
  f_equal. apply posix_inj; try done.
  - intros ->. by rewrite app_nil_r in N1.
  - intros ->. by rewrite app_nil_r in N2.
  - simpl in H1, H2. injection H1 as <-. injection H2 as H2.
    destruct (negb _); [by eapply append_cancel_l|done].
Qed.

(** Two files of one name in two folders get two keys; the first of them
    against itself. *)
Lemma build_s3_key_injective_witness :
  build_s3_key ["data"; "p1"; "a.dcm"] ["data"] "backups" = Some "backups/p1/a.dcm"
  ∧ build_s3_key ["data"; "p2"; "a.dcm"] ["data"] "backups" = Some "backups/p2/a.dcm"
  ∧ Forall (fun s => slash_free s = true) ["data"; "p1"; "a.dcm"]
  ∧ ["data"; "p1"; "a.dcm"] ≠ ["data"]
  ∧ ["data"; "p1"; "a.dcm"] = ["data"; "p1"; "a.dcm"].
Proof.
  assert (Forall (fun s => slash_free s = true) ["data"; "p1"; "a.dcm"]) as Hfree
    by (repeat constructor).
  split; [reflexivity|]. split; [reflexivity|]. split; [exact Hfree|]. split; [done|].
  apply (build_s3_key_injective ["data"; "p1"; "a.dcm"] ["data"; "p1"; "a.dcm"] ["data"]
           "backups" "backups/p1/a.dcm");
    [reflexivity|reflexivity|exact Hfree|exact Hfree|done|done].
Defined.

Lemma ends_with_slash_app p : ends_with_slash (p +:+ "/") = true.
Proof.
  induction p as [|c p IH]; simpl; [done|].
  destruct (p +:+ "/") eqn:Hp; [by destruct p|]. done.
Qed.

(** X26: A slash at the end of the prefix makes no difference: a prefix that
    is not empty gives the same keys with and without it. *)
Theorem build_s3_key_trailing_slash file root prefix :
  prefix ≠ "" → ends_with_slash prefix = false →
  build_s3_key file root (prefix +:+ "/") = build_s3_key file root prefix.
Proof.
  intros Hne Hend. unfold build_s3_key.
  destruct (relative_to file root) as [rel|]; [|done]. simpl.
  rewrite ends_with_slash_app, Hend.
  apply String.eqb_neq in Hne. rewrite Hne.
  assert ((prefix +:+ "/" =? "")%string = false) as -> by (by destruct prefix).
  done.
Qed.

(** The prefix [backups], with and without the slash. *)
Lemma build_s3_key_trailing_slash_witness :
  "backups" ≠ "" ∧ ends_with_slash "backups" = false
  ∧ build_s3_key ["data"; "p1"; "a.dcm"] ["data"] "backups/" = Some "backups/p1/a.dcm"
  ∧ build_s3_key ["data"; "p1"; "a.dcm"] ["data"] ("backups" +:+ "/")
    = build_s3_key ["data"; "p1"; "a.dcm"] ["data"] "backups".
Proof.
  split; [done|]. split; [reflexivity|]. split; [reflexivity|].
  by apply (build_s3_key_trailing_slash ["data"; "p1"; "a.dcm"] ["data"] "backups").
Defined.
